(** * Tutorial_01.ipynb: grabbing cloud-optimized GeoTIFFs and viewing them

    A shallow embedding of the code cells of [src/Tutorial_01.ipynb] with
    execution counts 3 to 11 (cells 1 and 2 import the libraries and put
    the map with its draw control on screen) and the properties of the
    pipeline they form: bounds extraction, catalog listing, pixel window,
    windowed reads, stacking along time, hand-over to the viewer.

    The notebook is Python: the global namespace is a finite map from
    names to values, exceptions are results, and every call into a third
    party library (shapely, pystac_client, rasterio, xarray, pandas,
    xcube) is recorded in a log together with its outcome, so that
    statements about which calls happen, how often and in which order can
    be made about the same definitions that compute the values. *)

From Stdlib Require Import ZArith Floats Ascii.
From stdpp Require Import gmap strings list list_numbers sorting.

Open Scope Z_scope.

(** ** Python values used by the notebook *)

(** Exceptions. The notebook raises none itself; these come from Python's
    own operations (indexing, name lookup, [int]) and from the libraries. *)
Inductive exn :=
| IndexError
| KeyError (key : string)
| NameError (name : string)
| TypeError
| AttributeError
| ValueError
| OverflowError
| External (what : string).

Inductive result (A : Type) :=
| Ok (a : A)
| Raise (e : exn).
Arguments Ok {A} a.
Arguments Raise {A} e.

Definition raised {A} (r : result A) : option exn :=
  match r with Ok _ => None | Raise e => Some e end.

(** shapely: [geometry.bounds] is the tuple (minx, miny, maxx, maxy). *)
Record Bounds := mkBounds { minx : float; miny : float; maxx : float; maxy : float }.

(** [bounds[i]] on that 4-tuple. *)
Definition bounds_item (b : Bounds) (i : Z) : result float :=
  match i with
  | 0 => Ok (minx b)
  | 1 => Ok (miny b)
  | 2 => Ok (maxx b)
  | 3 => Ok (maxy b)
  | _ => Raise IndexError
  end.

(** A GeoJSON geometry as the draw control stores it, and a drawn feature,
    the dict with a ['geometry'] entry. *)
Record GeoJSON := mkGeoJSON { geo_type : string; geo_coordinates : list (float * float) }.
Record Feature := mkFeature { feat_geometry : GeoJSON }.

(** shapely geometry built by [shape]. *)
Record Shape := mkShape { shape_points : list (float * float) }.

(** rasterio: the affine transform (a, b, c, d, e, f) of a raster, band
    statistics, and [rasterio.windows.Window]. *)
Record Affine := mkAffine
  { aff_a : float; aff_b : float; aff_c : float;
    aff_d : float; aff_e : float; aff_f : float }.
Record Statistics := mkStatistics
  { stat_min : float; stat_max : float; stat_mean : float; stat_std : float }.
Record Window := mkWindow
  { col_off : float; row_off : float; width : float; height : float }.

(** An opened rasterio dataset: [src.transform] and the outcome of
    [src.statistics(band)]. *)
Record RasterSrc := mkRasterSrc
  { src_url : string;
    src_transform : Affine;
    src_statistics : Z → result Statistics }.

(** STAC: an asset dict has an ['href']; [item.to_dict()['assets']] is a dict
    from asset keys to asset dicts; a collection has an id and items.
    [get_collections()] and [get_all_items()] are taken as answered at the
    call, with the whole list or with an exception: an iteration that
    fails after some elements is not distinguished from a call that
    fails. *)
Record Asset := mkAsset { href : string; asset_title : string }.
Record Item := mkItem { item_id : string; item_assets : gmap string Asset }.
Record Collection := mkCollection
  { coll_id : string;
    coll_items : result (list Item) (* outcome of [get_all_items()] *) }.
Record Catalog := mkCatalog
  { cat_collections : result (list Collection) (* [get_collections()] *) }.

(** pandas timestamps, to the day. *)
Record Timestamp := mkTimestamp { ts_year : Z; ts_month : Z; ts_day : Z }.

(** xarray. A dataset opened from a raster file is described by where its
    pixels come from: the file and, along x and y, the column and row
    positions of the file that it retains, in order. *)
Record Raster := mkRaster { r_source : string; r_x : list Z; r_y : list Z }.

(** A dataset with a time dimension: one layer per time coordinate. *)
Definition Cube := list (Timestamp * Raster).

Definition cube_time (c : Cube) : list Timestamp := c.*1.
Definition cube_layers (c : Cube) : list Raster := c.*2.

(** Values bound in the notebook's global namespace. *)
Inductive pyval :=
| VNone
| VBool (b : bool)
| VStr (s : string)
| VStrs (l : list string)
| VDrawControl (data : list Feature)
| VShape (g : Shape)
| VBounds (b : Bounds)
| VCatalog (c : Catalog)
| VCollection (c : Collection)
| VItems (l : list Item)
| VItem (i : Item)
| VSrc (s : RasterSrc)
| VWindow (w : Window)
| VStats (s : Statistics)
| VCube (c : Cube)
| VViewer (datasets : list (Cube * string)).

(** Truth value of an object in [if x:]. Objects of classes that define
    neither [__bool__] nor [__len__] (rasterio's [Window] among them) are
    true. *)
Definition truthy (v : pyval) : bool :=
  match v with
  | VNone => false
  | VBool b => b
  | VStr s => negb (String.eqb s "")
  | VStrs l => negb (bool_decide (l = []))
  | VItems l => match l with [] => false | _ => true end
  | _ => true
  end.

(** ** Python built-ins *)

(** [s.split(sep)] for a one-character separator. *)
Fixpoint split (sep : ascii) (s : string) : list string :=
  match s with
  | EmptyString => [EmptyString]
  | String c s' =>
      if Ascii.eqb c sep then EmptyString :: split sep s'
      else match split sep s' with
           | [] => [String c EmptyString]
           | w :: ws => String c w :: ws
           end
  end.

(** [l[i]] for [i >= 0], and [l[-1]]. *)
Definition index {A} (l : list A) (i : nat) : result A :=
  match l !! i with Some x => Ok x | None => Raise IndexError end.

Definition index_last {A} (l : list A) : result A :=
  match last l with Some x => Ok x | None => Raise IndexError end.

(** [int(x)] of a float: truncation toward zero; infinities and NaN raise. *)
Definition py_int (x : float) : result Z :=
  match Prim2SF x with
  | S754_zero _ => Ok 0
  | S754_finite s m e =>
      let v := Z.shiftl (Z.pos m) e in Ok (if s then - v else v)
  | S754_infinity _ => Raise OverflowError
  | S754_nan => Raise ValueError
  end.

(** [range(n)[a:b]]: the positions a slice [a:b] (step 1) selects in a
    sequence of length [n]. A negative bound counts from the end, and both
    bounds are clipped to the sequence. *)
Definition slice_bound (n i : Z) : Z :=
  if decide (i < 0) then Z.max (i + n) 0 else Z.min i n.

Definition py_slice {A} (a b : Z) (l : list A) : list A :=
  let n := Z.of_nat (length l) in
  let lo := slice_bound n a in
  let hi := slice_bound n b in
  take (Z.to_nat (hi - lo)) (drop (Z.to_nat lo) l).

(** ** The libraries

    What the third party libraries answer is not the notebook's to decide:
    it is a parameter of every definition below. Each field is the outcome
    of one library call on given arguments. *)
Record Lib := mkLib
  { shape : GeoJSON → result Shape;                    (* shapely.geometry.shape *)
    shape_bounds : Shape → result Bounds;              (* geometry.bounds *)
    Client_open : string → result Catalog;             (* pystac_client.Client.open *)
    rasterio_open : string → result RasterSrc;         (* rasterio.open *)
    from_bounds : float → float → float → float → Affine → result Window;
                                                       (* rasterio.windows.from_bounds *)
    raster_shape : string → result (nat * nat);        (* columns and rows of the
                                                          raster xarray opens *)
    date_range : string → string → result (list Timestamp);
                                                       (* pandas.date_range, freq='Y' *)
    Viewer : float → float → result unit;              (* xcube Viewer(server_config) *)
    add_dataset : Cube → string → result string;       (* viewer.add_dataset *)
    show : result unit                                 (* viewer.show *) }.

(** The library calls the notebook makes, with their arguments. *)
Inductive Call :=
| CShape (g : GeoJSON)
| CBounds (g : Shape)
| CPrint (v : pyval)
| CClientOpen (url : string)
| CGetCollections
| CGetAllItems (cid : string)
| CToDict (iid : string)
| CRasterioOpen (url : string)
| CFromBounds (left bottom right top : float) (tr : Affine)
| CStatistics (url : string) (band : Z)
| CClose (url : string)
| COpenDataset (url : string)
| CIsel (r : Raster) (x y : Z * Z)
| CDateRange (start stop : string)
| CExpandDims (r : Raster) (ts : list Timestamp)
| CConcat (a b : pyval)
| CViewer (lo hi : float)
| CAddDataset (v : pyval) (style : string)
| CShow.

(** A logged call: what was called and the exception it raised, if any. *)
Definition Event : Type := Call * option exn.

(** ** The notebook's state and the monad of its statements *)

Record St := mkSt { ns : gmap string pyval; log : list Event }.

Record M (A : Type) := MkM { run : St → result A * St }.
Arguments MkM {A} _.
Arguments run {A} _ _.

Definition ret {A} (a : A) : M A := MkM (λ s, (Ok a, s)).

Definition bind {A B} (m : M A) (k : A → M B) : M B :=
  MkM (λ s, match run m s with
            | (Ok a, s') => run (k a) s'
            | (Raise e, s') => (Raise e, s')
            end).

#[global] Instance M_ret : MRet M := @ret.
#[global] Instance M_bind : MBind M := λ A B k m, bind m k.

(** An operation of Python itself: no library call, it may raise. *)
Definition lift {A} (r : result A) : M A := MkM (λ s, (r, s)).
Definition throw {A} (e : exn) : M A := lift (Raise e).

(** A library call: its outcome is logged and returned. *)
Definition call {A} (c : Call) (r : result A) : M A :=
  MkM (λ s, (r, mkSt (ns s) (log s ++ [(c, raised r)]))).

(** [name = v] and the evaluation of a global [name]. *)
Definition assign (name : string) (v : pyval) : M unit :=
  MkM (λ s, (Ok tt, mkSt (<[name := v]> (ns s)) (log s))).

Definition load (name : string) : M pyval :=
  MkM (λ s, (match ns s !! name with
             | Some v => Ok v
             | None => Raise (NameError name)
             end, s)).

(** [for x in l: body]. *)
Fixpoint for_each {A} (l : list A) (body : A → M unit) : M unit :=
  match l with
  | [] => ret tt
  | x :: l' => body x ;; for_each l' body
  end.

(** [with enter as x: body]: the context manager's exit runs whether or
    not the body raises, and does not swallow the exception. *)
Definition with_as {A B} (enter : M A) (exit : A → Call) (body : A → M B) : M B :=
  x ← enter;
  MkM (λ s, let '(r, s') := run (body x) s in
            (r, mkSt (ns s') (log s' ++ [(exit x, None)]))).

(** Uses of a value at the type an operation needs: a value of another
    type makes the operation raise. *)
Definition expect {A} (e : exn) (o : option A) : M A :=
  match o with Some a => ret a | None => throw e end.

Definition as_strs (v : pyval) : M (list string) :=
  expect TypeError (match v with VStrs l => Some l | _ => None end).
Definition as_bounds (v : pyval) : M Bounds :=
  expect TypeError (match v with VBounds b => Some b | _ => None end).
Definition as_str (v : pyval) : M string :=
  expect TypeError (match v with VStr s => Some s | _ => None end).
Definition attr_data (v : pyval) : M (list Feature) :=
  expect AttributeError (match v with VDrawControl d => Some d | _ => None end).
Definition attr_window (v : pyval) : M Window :=
  expect AttributeError (match v with VWindow w => Some w | _ => None end).
Definition attr_stats (v : pyval) : M Statistics :=
  expect AttributeError (match v with VStats s => Some s | _ => None end).
Definition attr_viewer (v : pyval) : M (list (Cube * string)) :=
  expect AttributeError (match v with VViewer d => Some d | _ => None end).
Definition attr_src (v : pyval) : M RasterSrc :=
  expect AttributeError (match v with VSrc s => Some s | _ => None end).
Definition attr_shape (v : pyval) : M Shape :=
  expect AttributeError (match v with VShape g => Some g | _ => None end).
Definition attr_item (v : pyval) : M Item :=
  expect AttributeError (match v with VItem it => Some it | _ => None end).
Definition attr_collection (v : pyval) : M Collection :=
  expect AttributeError (match v with VCollection c => Some c | _ => None end).
Definition attr_catalog (v : pyval) : M Catalog :=
  expect AttributeError (match v with VCatalog c => Some c | _ => None end).
Definition as_items (v : pyval) : M (list Item) :=
  expect TypeError (match v with VItems l => Some l | _ => None end).

(** ** xarray operations the notebook calls

    [open_dataset(url, engine='rasterio')] yields every column and row of
    the file; [isel(x=slice(..), y=slice(..))] selects by position with
    Python's slice semantics; [expand_dims(time=ts)] gives the dataset a
    time dimension with the coordinates [ts], the same layer at each;
    [concat([a, b], dim='time')] puts the layers of [b] after those of [a].
    Only the time dimension of [concat] is modelled. *)
Definition whole (file_url : string) (cols rows : nat) : Raster :=
  mkRaster file_url (seqZ 0 (Z.of_nat cols)) (seqZ 0 (Z.of_nat rows)).

Definition open_dataset (L : Lib) (file_url : string) : M Raster :=
  call (COpenDataset file_url)
    (match raster_shape L file_url with
     | Ok (cols, rows) => Ok (whole file_url cols rows)
     | Raise e => Raise e
     end).

Definition selected (r : Raster) (x y : Z * Z) : Raster :=
  mkRaster (r_source r) (py_slice x.1 x.2 (r_x r)) (py_slice y.1 y.2 (r_y r)).

Definition isel (r : Raster) (x y : Z * Z) : M Raster :=
  call (CIsel r x y) (Ok (selected r x y)).

Definition stamped (r : Raster) (ts : list Timestamp) : Cube := (λ t, (t, r)) <$> ts.

Definition expand_dims (r : Raster) (ts : list Timestamp) : M Cube :=
  call (CExpandDims r ts) (Ok (stamped r ts)).

Definition concat_cubes (a b : Cube) : Cube := a ++ b.

Definition concat (a b : pyval) : M Cube :=
  call (CConcat a b)
    (match a, b with
     | VCube x, VCube y => Ok (concat_cubes x y)
     | _, _ => Raise TypeError
     end).

(** ** The notebook *)

(** Cell [3]:
<<
geometry = shape(draw_control.data[-1]['geometry'])
bounds = geometry.bounds
print(f'Bounds : {bounds}')
>> *)
Definition cell3 (L : Lib) : M unit :=
  dc ← load "draw_control";
  data ← attr_data dc;
  feat ← lift (index_last data);
  g ← call (CShape (feat_geometry feat)) (shape L (feat_geometry feat));
  assign "geometry" (VShape g);;
  gv ← load "geometry";
  g' ← attr_shape gv;
  b ← call (CBounds g') (shape_bounds L g');
  assign "bounds" (VBounds b);;
  bv ← load "bounds";
  call (CPrint bv) (Ok tt).

(** What the two shapely calls of cell [3] answer for a geometry. *)
Definition bounds_outcome (L : Lib) (g : GeoJSON) : result Bounds :=
  match shape L g with
  | Ok sh => shape_bounds L sh
  | Raise e => Raise e
  end.

(** Cell [4]: the catalog query. The three constants are parameters of
    [list_assets]; [cell4] is the cell with the notebook's values. *)
Definition catalog_url : string :=
  "https://s3.eu-central-1.wasabisys.com/stac/openlandmap/catalog.json".
Definition target_collection : string := "wv_mcd19a2v061.seasconv.m.yearly".
Definition target_item : string := "wv_mcd19a2v061.seasconv.m.yearly_p75_1km_s".

(** [item.to_dict()['assets']] *)
Definition to_dict_assets (it : Item) : M (gmap string Asset) :=
  call (CToDict (item_id it)) (Ok (item_assets it)).

(** [d[key]] on a dict. *)
Definition getitem (d : gmap string Asset) (key : string) : M Asset :=
  expect (KeyError key) (d !! key).

(** [file_store.append(x)] *)
Definition append_file_store (x : string) : M unit :=
  fs ← load "file_store" ≫= as_strs;
  assign "file_store" (VStrs (fs ++ [x])).

(** [item.to_dict()] on whatever [item] is bound to. *)
Definition attr_to_dict (v : pyval) : M (gmap string Asset) :=
  attr_item v ≫= to_dict_assets.

(**
<<
            for key in item.to_dict()['assets'].keys():
                if key == target_item:
                    file_store.append(item.to_dict()['assets'][key]['href'])
>> *)
Definition check_key (key : string) : M unit :=
  assign "key" (VStr key);;
  k ← load "key" ≫= as_str;
  ti ← load "target_item" ≫= as_str;
  if bool_decide (k = ti) then
    assets ← load "item" ≫= attr_to_dict;
    k' ← load "key" ≫= as_str;
    a ← getitem assets k';
    append_file_store (href a)
  else mret tt.

Definition for_keys : M unit :=
  assets ← load "item" ≫= attr_to_dict;
  for_each (map_to_list assets).*1 check_key.

(**
<<
for collection in catalog.get_collections():
    if collection.id == target_collection:
        items = collection.get_all_items()
        for item in items:
            ...
>> *)
Definition visit_item (item : Item) : M unit :=
  assign "item" (VItem item);;
  for_keys.

Definition visit_collection (collection : Collection) : M unit :=
  assign "collection" (VCollection collection);;
  c ← load "collection" ≫= attr_collection;
  tc ← load "target_collection" ≫= as_str;
  if bool_decide (coll_id c = tc) then
    c' ← load "collection" ≫= attr_collection;
    items ← call (CGetAllItems (coll_id c')) (coll_items c');
    assign "items" (VItems items);;
    items' ← load "items" ≫= as_items;
    for_each items' visit_item
  else mret tt.

Definition for_collections (colls : list Collection) : M unit :=
  for_each colls visit_collection.

Definition list_assets (url tc ti : string) (L : Lib) : M unit :=
  assign "catalog_url" (VStr url);;
  assign "target_collection" (VStr tc);;
  assign "target_item" (VStr ti);;
  assign "file_store" (VStrs []);;
  u ← load "catalog_url" ≫= as_str;
  catalog ← call (CClientOpen u) (Client_open L u);
  assign "catalog" (VCatalog catalog);;
  cat ← load "catalog" ≫= attr_catalog;
  colls ← call CGetCollections (cat_collections cat);
  for_collections colls.

Definition cell4 : Lib → M unit :=
  list_assets catalog_url target_collection target_item.

(** What the listing is meant to collect: the ['href'] of every asset
    whose key is [ti], over the items of every collection whose id is
    [tc], in the order the catalog yields them. *)
Definition asset_hrefs (ti : string) (it : Item) : list string :=
  (λ p, href p.2) <$> filter (λ p, p.1 = ti) (map_to_list (item_assets it)).

Definition items_of (c : Collection) : list Item :=
  match coll_items c with Ok l => l | Raise _ => [] end.

Definition listed (tc ti : string) (colls : list Collection) : list string :=
  c ← filter (λ c, coll_id c = tc) colls;
  it ← items_of c;
  asset_hrefs ti it.

(** Cell [5] displays [file_store], cell [7] displays [stats]. *)
Definition cell5 : M unit := load "file_store" ;; ret tt.
Definition cell7 : M unit := load "stats" ;; ret tt.

(** Cell [6]:
<<
with rasterio.open(file_store[0]) as src:
    window = rasterio.windows.from_bounds(bounds[0],bounds[1],bounds[2],bounds[3],src.transform)
    stats = src.statistics(1)

window
>> *)
Definition bounds_at (i : Z) : M float :=
  b ← load "bounds" ≫= as_bounds;
  lift (bounds_item b i).

Definition cell6 (L : Lib) : M unit :=
  with_as
    (fs ← load "file_store" ≫= as_strs;
     url ← lift (index fs 0);
     call (CRasterioOpen url) (rasterio_open L url))
    (λ src, CClose (src_url src))
    (λ src,
      assign "src" (VSrc src);;
      b0 ← bounds_at 0;
      b1 ← bounds_at 1;
      b2 ← bounds_at 2;
      b3 ← bounds_at 3;
      s ← load "src" ≫= attr_src;
      w ← call (CFromBounds b0 b1 b2 b3 (src_transform s))
               (from_bounds L b0 b1 b2 b3 (src_transform s));
      assign "window" (VWindow w);;
      s' ← load "src" ≫= attr_src;
      st ← call (CStatistics (src_url s') 1) (src_statistics s' 1);
      assign "stats" (VStats st));;
  load "window";;
  ret tt.

(** Cell [8]:
<<
def read_raster(file_url, window=None):
    if window:
        d = open_dataset(file_url, engine='rasterio').isel(
            x=slice(int(window.col_off), int(window.col_off + window.width)),
            y=slice(int(window.row_off), int(window.row_off + window.height))
        )
    else:
        d = open_dataset(file_url, engine='rasterio')
    d = d.expand_dims(time = date_range(file_url.split('_')[5], file_url.split('_')[6], freq='Y'))
    return d
>> *)
Definition read_raster (L : Lib) (file_url : string) (window : pyval) : M Cube :=
  d ← (if truthy window then
         ds ← open_dataset L file_url;
         w ← attr_window window;
         x0 ← lift (py_int (col_off w));
         x1 ← lift (py_int (col_off w + width w)%float);
         y0 ← lift (py_int (row_off w));
         y1 ← lift (py_int (row_off w + height w)%float);
         isel ds (x0, x1) (y0, y1)
       else open_dataset L file_url);
  start ← lift (index (split "_" file_url) 5);
  stop ← lift (index (split "_" file_url) 6);
  ts ← call (CDateRange start stop) (date_range L start stop);
  expand_dims d ts.

(** Cell [9]:
<<
first_run = True
for f in file_store:
    if first_run:
        datacube = read_raster(f, window)
        first_run = False
    else:
        d = read_raster(f,window)
        datacube = concat([datacube, d], dim='time')
>>
    [read_raster] is called by its definition: the global name bound by
    the [def] of cell [8] is taken as bound and is not looked up. *)
Definition stack_one (L : Lib) (f : string) : M unit :=
  assign "f" (VStr f);;
  first_run ← load "first_run";
  if truthy first_run then
    fv ← load "f" ≫= as_str;
    w ← load "window";
    dc ← read_raster L fv w;
    assign "datacube" (VCube dc);;
    assign "first_run" (VBool false)
  else
    fv ← load "f" ≫= as_str;
    w ← load "window";
    d ← read_raster L fv w;
    assign "d" (VCube d);;
    a ← load "datacube";
    b ← load "d";
    c ← concat a b;
    assign "datacube" (VCube c).

Definition cell9 (L : Lib) : M unit :=
  assign "first_run" (VBool true);;
  fs ← load "file_store" ≫= as_strs;
  for_each fs (stack_one L).

(** Cell [10]: [viewer = Viewer(server_config = ...)], whose only inputs
    are [stats.min] and [stats.max]. *)
Definition cell10 (L : Lib) : M unit :=
  s_lo ← load "stats" ≫= attr_stats;
  s_hi ← load "stats" ≫= attr_stats;
  call (CViewer (stat_min s_lo) (stat_max s_hi))
       (Viewer L (stat_min s_lo) (stat_max s_hi));;
  assign "viewer" (VViewer []).

(** Cell [11]:
<<
viewer.add_dataset(datacube, style='mydata')
viewer.show()
>> *)
Definition cell11 (L : Lib) : M unit :=
  ds ← load "viewer" ≫= attr_viewer;
  dc ← load "datacube";
  call (CAddDataset dc "mydata")
       (match dc with
        | VCube c => add_dataset L c "mydata"
        | _ => Raise TypeError
        end);;
  assign "viewer" (VViewer (ds ++ match dc with VCube c => [(c, "mydata")] | _ => [] end));;
  load "viewer" ≫= attr_viewer;;
  call CShow (show L).

(** The cells in order, as "run all" executes them. *)
Definition notebook (L : Lib) : M unit :=
  cell3 L;; cell4 L;; cell5;; cell6 L;; cell7;; cell9 L;; cell10 L;; cell11 L.

(** The state the run starts from: the draw control with what the user
    drew on the map of cell [2], and an empty log. *)
Definition initial (drawn : list Feature) : St :=
  mkSt {[ "draw_control" := VDrawControl drawn ]} [].

(** ** What a statement returns and logs when nothing depends on the state

    [read_raster] reads no global: its outcome and the calls it makes are
    those of a run from the empty state. *)
Definition empty_state : St := mkSt ∅ [].
Definition outcome {A} (m : M A) : result A := (run m empty_state).1.
Definition calls {A} (m : M A) : list Event := log (run m empty_state).2.

Definition stateless {A} (m : M A) : Prop :=
  ∀ s, run m s = (outcome m, mkSt (ns s) (log s ++ calls m)).

(** The time coordinates [read_raster] gives a file: [date_range] over
    the 6th and 7th underscore-separated fields of its URL. *)
Definition file_times (L : Lib) (file_url : string) : result (list Timestamp) :=
  match index (split "_" file_url) 5, index (split "_" file_url) 6 with
  | Ok start, Ok stop => date_range L start stop
  | Raise e, _ => Raise e
  | _, Raise e => Raise e
  end.

(** The slices [read_raster] passes to [isel] for a window. *)
Definition window_slices (w : Window) : result ((Z * Z) * (Z * Z)) :=
  match py_int (col_off w), py_int (col_off w + width w)%float,
        py_int (row_off w), py_int (row_off w + height w)%float with
  | Ok x0, Ok x1, Ok y0, Ok y1 => Ok ((x0, x1), (y0, y1))
  | Raise e, _, _, _ => Raise e
  | _, Raise e, _, _ => Raise e
  | _, _, Raise e, _ => Raise e
  | _, _, _, Raise e => Raise e
  end.

(** The selection the sentence "the x indices from [int(col_off)]
    inclusive to [int(col_off + width)] exclusive, and the y indices
    likewise" describes, for the layers of a read. *)
Definition selects_exactly (L : Lib) (file_url : string) (w : Window) : Prop :=
  ∀ x0 x1 y0 y1 d,
    window_slices w = Ok ((x0, x1), (y0, y1)) →
    outcome (read_raster L file_url (VWindow w)) = Ok d →
    Forall (λ r, r_x r = seqZ x0 (x1 - x0) ∧ r_y r = seqZ y0 (y1 - y0)) (cube_layers d).

(** The list comprehension [[g(x) for x in l]]: the first exception ends it. *)
Fixpoint comprehension {A B} (g : A → result B) (l : list A) : result (list B) :=
  match l with
  | [] => Ok []
  | x :: l' =>
      match g x with
      | Ok y =>
          match comprehension g l' with
          | Ok ys => Ok (y :: ys)
          | Raise e => Raise e
          end
      | Raise e => Raise e
      end
  end.

(** The stacking loop of cell [9] once [first_run] is [False] and
    [datacube] holds [acc]: the datacube it ends with, and its calls. *)
Fixpoint stack_value (L : Lib) (w : pyval) (acc : Cube) (fs : list string) : result Cube :=
  match fs with
  | [] => Ok acc
  | f :: fs' =>
      match outcome (read_raster L f w) with
      | Ok d => stack_value L w (concat_cubes acc d) fs'
      | Raise e => Raise e
      end
  end.

Fixpoint stack_log (L : Lib) (w : pyval) (acc : Cube) (fs : list string) : list Event :=
  match fs with
  | [] => []
  | f :: fs' =>
      calls (read_raster L f w) ++
      match outcome (read_raster L f w) with
      | Ok d => (CConcat (VCube acc) (VCube d), None) :: stack_log L w (concat_cubes acc d) fs'
      | Raise _ => []
      end
  end.

(** The same for the whole loop, from [first_run = True]. *)
Definition cell9_value (L : Lib) (w : pyval) (fs : list string) : result (option Cube) :=
  match fs with
  | [] => Ok None
  | f :: fs' =>
      match outcome (read_raster L f w) with
      | Ok d => match stack_value L w d fs' with Ok c => Ok (Some c) | Raise e => Raise e end
      | Raise e => Raise e
      end
  end.

Definition cell9_log (L : Lib) (w : pyval) (fs : list string) : list Event :=
  match fs with
  | [] => []
  | f :: fs' =>
      calls (read_raster L f w) ++
      match outcome (read_raster L f w) with
      | Ok d => stack_log L w d fs'
      | Raise _ => []
      end
  end.

(** The calls the loops of cell [4] make when they run to the end: one
    [get_all_items] per matching collection, and per item one [to_dict] for
    the keys and one more for each asset appended. *)
Definition item_log (ti : string) (it : Item) : list Event :=
  (CToDict (item_id it), None) ::
  ((λ _, (CToDict (item_id it), None)) <$> asset_hrefs ti it).

Definition collection_log (tc ti : string) (c : Collection) : list Event :=
  if bool_decide (coll_id c = tc)
  then (CGetAllItems (coll_id c), None) :: (items_of c ≫= item_log ti)
  else [].

Definition listing_log (tc ti : string) (colls : list Collection) : list Event :=
  colls ≫= collection_log tc ti.

Definition listing_names : list string :=
  ["collection"; "items"; "item"; "key"; "file_store"].

(** ** Reading the log *)

(** What was handed to the viewer, which files xarray and rasterio opened,
    the arguments of [from_bounds], the slices of [isel], and the [concat]
    calls. *)
Definition handed (evs : list Event) : list pyval :=
  omap (λ ev, match ev.1 with CAddDataset v _ => Some v | _ => None end) evs.
Definition opened (evs : list Event) : list string :=
  omap (λ ev, match ev.1 with COpenDataset u => Some u | _ => None end) evs.
Definition rasterio_opened (evs : list Event) : list string :=
  omap (λ ev, match ev.1 with CRasterioOpen u => Some u | _ => None end) evs.
Definition windows_computed (evs : list Event) : list (float * float * float * float * Affine) :=
  omap (λ ev, match ev.1 with
              | CFromBounds l b r t tr => Some (l, b, r, t, tr)
              | _ => None
              end) evs.
Definition isel_slices (evs : list Event) : list ((Z * Z) * (Z * Z)) :=
  omap (λ ev, match ev.1 with CIsel _ x y => Some (x, y) | _ => None end) evs.
Definition concats (evs : list Event) : list (pyval * pyval) :=
  omap (λ ev, match ev.1 with CConcat a b => Some (a, b) | _ => None end) evs.

(** The seven steps of the pipeline, as numbered in its description:
    1 bounds of the drawn region, 2 catalog query, 3 listing of the asset
    URLs, 4 pixel window, 5 windowed read, 6 concatenation, 7 viewer. *)
Definition step_of (c : Call) : nat :=
  match c with
  | CShape _ | CBounds _ | CPrint _ => 1
  | CClientOpen _ | CGetCollections => 2
  | CGetAllItems _ | CToDict _ => 3
  | CRasterioOpen _ | CFromBounds _ _ _ _ _ | CStatistics _ _ | CClose _ => 4
  | COpenDataset _ | CIsel _ _ _ | CDateRange _ _ | CExpandDims _ _ => 5
  | CConcat _ _ => 6
  | CViewer _ _ | CAddDataset _ _ | CShow => 7
  end%nat.

(** The same with reading and concatenating taken as one step, stacking. *)
Definition phase (c : Call) : nat :=
  match step_of c with
  | 6 => 5
  | n => n
  end%nat.

(** A log is in the order of a numbering when no call comes before a call
    of a lower number. *)
Definition in_order (number : Call → nat) (evs : list Event) : Prop :=
  StronglySorted (λ a b, number a.1 ≤ number b.1)%nat evs.

(** The calls a statement adds to the log of a state. *)
Definition calls_from {A} (m : M A) (s : St) : list Event :=
  drop (length (log s)) (log (run m s).2).

(** The log of a run of the whole notebook that completes: the calls of
    each cell, one cell after the other. *)
Definition cell3_log (g : GeoJSON) (sh : Shape) (b : Bounds) : list Event :=
  [ (CShape g, None); (CBounds sh, None); (CPrint (VBounds b), None) ].

Definition cell4_log (colls : list Collection) : list Event :=
  [ (CClientOpen catalog_url, None); (CGetCollections, None) ] ++
  listing_log target_collection target_item colls.

Definition cell6_log (f0 : string) (b : Bounds) (src : RasterSrc) : list Event :=
  [ (CRasterioOpen f0, None);
    (CFromBounds (minx b) (miny b) (maxx b) (maxy b) (src_transform src), None);
    (CStatistics (src_url src) 1, None);
    (CClose (src_url src), None) ].

Definition viewer_log (lo hi : float) (dc : Cube) : list Event :=
  [ (CViewer lo hi, None); (CAddDataset (VCube dc) "mydata", None); (CShow, None) ].

(** ** A concrete library

    [pandas_date_range] follows pandas on the compact [YYYYMMDD] dates of
    the catalog's file names: [date_range(start, end, freq='Y')] is the
    list of year ends (31 December) [d] with [start <= d <= end]. Dates in
    other notations are not covered and are reported as [ValueError]. *)
Definition digit (c : ascii) : option Z :=
  let n := Z.of_N (N_of_ascii c) in
  if decide (48 ≤ n ≤ 57) then Some (n - 48) else None.

Fixpoint number_from (acc : Z) (s : string) : option Z :=
  match s with
  | EmptyString => Some acc
  | String c s' =>
      match digit c with
      | Some d => number_from (10 * acc + d) s'
      | None => None
      end
  end.

Definition leap_year (y : Z) : bool :=
  bool_decide (y mod 4 = 0 ∧ (y mod 100 ≠ 0 ∨ y mod 400 = 0)).

Definition days_in_month (y m : Z) : Z :=
  if decide (m = 2) then (if leap_year y then 29 else 28)
  else if decide (m = 4 ∨ m = 6 ∨ m = 9 ∨ m = 11) then 30
  else 31.

Definition parse_yyyymmdd (s : string) : result Timestamp :=
  if decide (String.length s = 8%nat) then
    match number_from 0 s with
    | Some n =>
        let y := n / 10000 in
        let m := (n / 100) mod 100 in
        let d := n mod 100 in
        if decide (1 ≤ m ≤ 12 ∧ 1 ≤ d ≤ days_in_month y m)
        then Ok (mkTimestamp y m d)
        else Raise ValueError
    | None => Raise ValueError
    end
  else Raise ValueError.

Definition year_end (y : Z) : Timestamp := mkTimestamp y 12 31.

Definition pandas_date_range (start stop : string) : result (list Timestamp) :=
  match parse_yyyymmdd start, parse_yyyymmdd stop with
  | Ok s, Ok e =>
      let last_year :=
        if decide (ts_month e = 12 ∧ ts_day e = 31) then ts_year e else ts_year e - 1 in
      Ok (year_end <$> seqZ (ts_year s) (last_year - ts_year s + 1))
  | Raise x, _ => Raise x
  | _, Raise x => Raise x
  end.

(** [rasterio.windows.from_bounds] for a north-up transform (b = d = 0):
    the pixel coordinates of the four corners, their minima as offsets and
    their extents as lengths. *)
Definition fmin (x y : float) : float := if PrimFloat.ltb y x then y else x.
Definition fmax (x y : float) : float := if PrimFloat.ltb x y then y else x.

Definition rasterio_from_bounds
    (left bottom right top : float) (tr : Affine) : result Window :=
  let col x := ((x - aff_c tr) / aff_a tr)%float in
  let row y := ((y - aff_f tr) / aff_e tr)%float in
  let c0 := fmin (col left) (col right) in
  let c1 := fmax (col left) (col right) in
  let r0 := fmin (row top) (row bottom) in
  let r1 := fmax (row top) (row bottom) in
  Ok (mkWindow c0 r0 (fmax (c1 - c0) 0) (fmax (r1 - r0) 0))%float.

(** The bounding box of a list of points, as shapely reports it. *)
Definition bounding_box (g : Shape) : result Bounds :=
  match shape_points g with
  | [] => Raise ValueError
  | (x, y) :: ps =>
      Ok (fold_left
            (λ b p, mkBounds (fmin (minx b) p.1) (fmin (miny b) p.2)
                             (fmax (maxx b) p.1) (fmax (maxy b) p.2))
            ps (mkBounds x y x y))
  end.

(** A world in which every raster is a [cols] by [rows] grid with the
    transform [tr], and the catalog at any address is [cat]. *)
Definition simple_lib (cat : Catalog) (cols rows : nat) (tr : Affine) : Lib :=
  {| shape g := Ok (mkShape (geo_coordinates g));
     shape_bounds := bounding_box;
     Client_open _ := Ok cat;
     rasterio_open url :=
       Ok (mkRasterSrc url tr (λ _, Ok (mkStatistics 29 6931 1747.25 1155.75)%float));
     from_bounds := rasterio_from_bounds;
     raster_shape _ := Ok (cols, rows);
     date_range := pandas_date_range;
     Viewer _ _ := Ok tt;
     add_dataset _ _ := Ok "ds0";
     show := Ok tt |}.

(** ** A small world to run the notebook in

    A global raster of 36 by 18 cells of ten degrees; the catalog holds the
    yearly water vapour collection with three items, and another
    collection whose item carries an asset under the same key. *)
Definition url_2000 : string :=
  "https://s3.openlandmap.org/arco/wv_mcd19a2v061.seasconv.m.yearly_p75_1km_s_20000101_20001231_go_epsg.4326_v20230619.tif".
Definition url_2001 : string :=
  "https://s3.openlandmap.org/arco/wv_mcd19a2v061.seasconv.m.yearly_p75_1km_s_20010101_20011231_go_epsg.4326_v20230619.tif".
Definition url_2002 : string :=
  "https://s3.openlandmap.org/arco/wv_mcd19a2v061.seasconv.m.yearly_p75_1km_s_20020101_20021231_go_epsg.4326_v20230619.tif".
(** A layer of the same naming convention that covers two years. *)
Definition url_2000_2001 : string :=
  "https://s3.openlandmap.org/arco/wv_mcd19a2v061.seasconv.m.yearly_p75_1km_s_20000101_20011231_go_epsg.4326_v20230619.tif".

Definition yearly_item (name url : string) : Item :=
  mkItem name
    {[ target_item := mkAsset url "p75";
       "thumbnail" := mkAsset "https://s3.openlandmap.org/arco/preview.png" "preview" ]}.

Definition demo_catalog : Catalog :=
  mkCatalog (Ok
    [ mkCollection "lc_glc.fcs30d"
        (Ok [yearly_item "lc_2000" "https://s3.openlandmap.org/arco/lc_2000.tif"]);
      mkCollection target_collection
        (Ok [ yearly_item "wv_2000" url_2000;
              yearly_item "wv_2001" url_2001;
              yearly_item "wv_2002" url_2002 ]) ]).

Definition demo_transform : Affine := mkAffine 10 0 (-180) 0 (-10) 90.

Definition demo_lib : Lib := simple_lib demo_catalog 36 18 demo_transform.

(** The same world with a catalog whose one matching asset covers two
    years. *)
Definition two_year_catalog : Catalog :=
  mkCatalog (Ok [ mkCollection target_collection
                    (Ok [yearly_item "wv_2000_2001" url_2000_2001]) ]).

Definition two_year_lib : Lib := simple_lib two_year_catalog 36 18 demo_transform.

(** A rectangle drawn over South America, and an earlier one elsewhere. *)
Definition south_america : Feature :=
  mkFeature (mkGeoJSON "Polygon"
    [(-100.5, -57.25); (-100.5, 18.75); (-31.75, 18.75); (-31.75, -57.25);
     (-100.5, -57.25)]%float).
Definition elsewhere : Feature :=
  mkFeature (mkGeoJSON "Polygon"
    [(0.5, 1.25); (0.5, 2.5); (3.75, 2.5); (3.75, 1.25); (0.5, 1.25)]%float).

Definition demo_files : list string := [url_2000; url_2001; url_2002].

(** The window of that rectangle on the grid: columns 7.95 to 14.825 and
    rows 7.125 to 14.725. *)
Definition demo_window : Window :=
  match rasterio_from_bounds (-100.5) (-57.25) (-31.75) 18.75 demo_transform with
  | Ok w => w
  | Raise _ => mkWindow 0 0 0 0
  end.

Definition demo_layer (url : string) : Raster := mkRaster url (seqZ 7 7) (seqZ 7 7).

Definition demo_cube : Cube :=
  [ (year_end 2000, demo_layer url_2000);
    (year_end 2001, demo_layer url_2001);
    (year_end 2002, demo_layer url_2002) ].

(** The window the notebook shows for its rectangle over South America on
    the 1 km grid, and a window that starts west of the grid's edge, as the
    window of a rectangle drawn across the antimeridian does. *)
#[local] Set Warnings "-inexact-float".
Definition notebook_window : Window :=
  mkWindow 9553.196182127847 8233.669529346782 8223.8549689542 9099.522003980881.
#[local] Set Warnings "+inexact-float".

Definition window_west : Window := mkWindow (-2.5) 3.25 5 4.

(** The state cell [9] starts from when the cells before it have run. *)
Definition prepared (L : Lib) (drawn : list Feature) : St :=
  (run (cell3 L;; cell4 L;; cell5;; cell6 L;; cell7) (initial drawn)).2.

(** ** Properties of statements that follow their structure

    - [preserves keep m]: [m] does not rebind the names in [keep];
    - [emits P m]: every library call [m] makes satisfies [P];
    - [propagates m]: when a library call made by [m] raises, [m] raises
      the same exception, it is the only call that raised, and the only
      calls logged after it are exits of context managers. *)

Definition preserves {A} (keep : string → Prop) (m : M A) : Prop :=
  ∀ s k, keep k → ns (run m s).2 !! k = ns s !! k.

Definition delta {A} (m : M A) (s : St) (new : list Event) : Prop :=
  log (run m s).2 = log s ++ new.

Definition emits {A} (P : Call → Prop) (m : M A) : Prop :=
  ∀ s, ∃ new, delta m s new ∧ Forall (λ ev, P ev.1) new.

Definition is_exit (c : Call) : Prop := ∃ url, c = CClose url.

Definition quiet (evs : list Event) : Prop := Forall (λ ev, ev.2 = None) evs.

Definition propagated {A} (new : list Event) (r : result A) : Prop :=
  quiet new ∨
  ∃ pre c e post,
    new = pre ++ (c, Some e) :: post ∧ quiet pre ∧
    Forall (λ ev, is_exit ev.1 ∧ ev.2 = None) post ∧ r = Raise e.

Definition propagates {A} (m : M A) : Prop :=
  ∀ s, ∃ new, delta m s new ∧ propagated new (run m s).1.


(** [staged lo hi m]: the calls of [m] are in phase order, within phases
    [lo] to [hi]. *)
Definition staged {A} (lo hi : nat) (m : M A) : Prop :=
  ∀ s, ∃ new, delta m s new ∧
              Forall (λ ev, lo ≤ phase ev.1 ≤ hi)%nat new ∧ in_order phase new.

(** The names each cell binds. *)
Definition cell3_names : list string := ["geometry"; "bounds"].
Definition cell4_names : list string :=
  ["catalog_url"; "target_collection"; "target_item"; "file_store"; "catalog";
   "collection"; "items"; "item"; "key"].
Definition cell6_names : list string := ["src"; "window"; "stats"].
Definition cell9_names : list string := ["first_run"; "f"; "datacube"; "d"].
Definition viewer_names : list string := ["viewer"].

(** A world like [demo_lib] in which the file of 2001 cannot be opened,
    and one in which the band statistics cannot be computed. *)
Definition missing_2001 : Lib :=
  {| shape := shape demo_lib;
     shape_bounds := shape_bounds demo_lib;
     Client_open := Client_open demo_lib;
     rasterio_open := rasterio_open demo_lib;
     from_bounds := from_bounds demo_lib;
     raster_shape url :=
       if bool_decide (url = url_2001) then Raise (External "HTTP 404")
       else raster_shape demo_lib url;
     date_range := date_range demo_lib;
     Viewer := Viewer demo_lib;
     add_dataset := add_dataset demo_lib;
     show := show demo_lib |}.

Definition no_statistics : Lib :=
  {| shape := shape demo_lib;
     shape_bounds := shape_bounds demo_lib;
     Client_open := Client_open demo_lib;
     rasterio_open url :=
       Ok (mkRasterSrc url demo_transform (λ _, Raise (External "no statistics")));
     from_bounds := from_bounds demo_lib;
     raster_shape := raster_shape demo_lib;
     date_range := date_range demo_lib;
     Viewer := Viewer demo_lib;
     add_dataset := add_dataset demo_lib;
     show := show demo_lib |}.


(** ** Further readings of the code *)

(** The number of occurrences of a character in a string: a string with
    [n] underscores splits into [n + 1] fields. *)
Fixpoint count_char (c : ascii) (s : string) : nat :=
  match s with
  | EmptyString => 0
  | String c' s' => (if Ascii.eqb c' c then 1 else 0) + count_char c s'
  end.

(** [sep.join(fields)] for a one-character separator. *)
Fixpoint join (sep : ascii) (fields : list string) : string :=
  match fields with
  | [] => EmptyString
  | [w] => w
  | w :: ws => String.append w (String sep (join sep ws))
  end.

Definition closed (evs : list Event) : list string :=
  omap (λ ev, match ev.1 with CClose u => Some u | _ => None end) evs.
Definition value_ranges (evs : list Event) : list (float * float) :=
  omap (λ ev, match ev.1 with CViewer lo hi => Some (lo, hi) | _ => None end) evs.

(** The datacube the stacking loop has reached when it stops, whether it
    ran to the end or a read raised: the reads before the first failure,
    concatenated onto [acc]. *)
Fixpoint stack_reached (L : Lib) (w : pyval) (acc : Cube) (fs : list string) : Cube :=
  match fs with
  | [] => acc
  | f :: fs' =>
      match outcome (read_raster L f w) with
      | Ok d => stack_reached L w (concat_cubes acc d) fs'
      | Raise _ => acc
      end
  end.

(** What one file contributes to the datacube for given slices: its window,
    at each of its timestamps. *)
Definition file_cube (L : Lib) (x y : Z * Z) (f : string) (c : Cube) : Prop :=
  ∃ cols rows ts,
    raster_shape L f = Ok (cols, rows) ∧ file_times L f = Ok ts ∧
    c = stamped (selected (whole f cols rows) x y) ts.

(** The URL an item offers under a key, by dict lookup. *)
Definition item_href (ti : string) (it : Item) : list string :=
  match item_assets it !! ti with Some a => [href a] | None => [] end.

(** A catalog without the target collection, and the small world with it. *)
Definition other_catalog : Catalog :=
  mkCatalog (Ok
    [ mkCollection "lc_glc.fcs30d"
        (Ok [yearly_item "lc_2000" "https://s3.openlandmap.org/arco/lc_2000.tif"]) ]).

Definition other_lib : Lib := simple_lib other_catalog 36 18 demo_transform.


(** A world like [demo_lib] in which the catalog cannot be reached. *)
Definition offline_lib : Lib :=
  {| shape := shape demo_lib;
     shape_bounds := shape_bounds demo_lib;
     Client_open _ := Raise (External "connection refused");
     rasterio_open := rasterio_open demo_lib;
     from_bounds := from_bounds demo_lib;
     raster_shape := raster_shape demo_lib;
     date_range := date_range demo_lib;
     Viewer := Viewer demo_lib;
     add_dataset := add_dataset demo_lib;
     show := show demo_lib |}.

(** A float [int] accepts: a zero or a finite number. *)
Definition finite (x : float) : bool :=
  match Prim2SF x with
  | S754_zero _ | S754_finite _ _ _ => true
  | S754_infinity _ | S754_nan => false
  end.

(** A window whose offsets and sizes are finite and whose right edge is
    not: [2^1023 + 2^1023] overflows to infinity. *)
Definition big_window : Window := mkWindow 0x1p1023 0 0x1p1023 1.

(** ** The shape of a cell's calls *)




(** * Properties *)

(** ** Running statements *)

Lemma run_bind {A B} (m : M A) (k : A → M B) s :
  run (m ≫= k) s =
  match run m s with
  | (Ok a, s') => run (k a) s'
  | (Raise e, s') => (Raise e, s')
  end.
Proof. reflexivity. Qed.

Lemma run_bind_ok {A B} (m : M A) (k : A → M B) s a s' :
  run m s = (Ok a, s') → run (m ≫= k) s = run (k a) s'.
Proof. intros E. rewrite run_bind, E. reflexivity. Qed.

Lemma run_bind_raise {A B} (m : M A) (k : A → M B) s e s' :
  run m s = (Raise e, s') → run (m ≫= k) s = (Raise e, s').
Proof. intros E. rewrite run_bind, E. reflexivity. Qed.

Lemma run_for_each_cons {A} (x : A) l body s :
  run (for_each (x :: l) body) s =
  match run (body x) s with
  | (Ok _, s') => run (for_each l body) s'
  | (Raise e, s') => (Raise e, s')
  end.
Proof. reflexivity. Qed.

Create HintDb nb discriminated.

Section Structural.
Context {A B : Type}.
Implicit Types (m : M A) (k : A → M B).

(** *** [preserves] *)
Lemma preserves_ret keep (a : A) : preserves keep (mret a).
Proof. intros s k _. reflexivity. Qed.

Lemma preserves_lift keep (r : result A) : preserves keep (lift r).
Proof. intros s k _. reflexivity. Qed.

Lemma preserves_throw keep e : preserves keep (throw (A:=A) e).
Proof. intros s k _. reflexivity. Qed.

Lemma preserves_call keep c (r : result A) : preserves keep (call c r).
Proof. intros s k _. reflexivity. Qed.

Lemma preserves_bind keep m k :
  preserves keep m → (∀ a, preserves keep (k a)) → preserves keep (m ≫= k).
Proof.
  intros Hm Hk s x Hx. rewrite run_bind.
  specialize (Hm s x Hx).
  destruct (run m s) as [[a|e] s1]; simpl in *; [|exact Hm].
  rewrite (Hk a s1 x Hx). exact Hm.
Qed.

Lemma preserves_with_as keep (enter : M A) exit (body : A → M B) :
  preserves keep enter → (∀ a, preserves keep (body a)) →
  preserves keep (with_as enter exit body).
Proof.
  intros He Hb. unfold with_as. apply preserves_bind; [exact He|].
  intros a s x Hx. simpl. specialize (Hb a s x Hx).
  destruct (run (body a) s) as [r s1]. exact Hb.
Qed.

(** *** [emits] *)
Lemma emits_ret P (a : A) : emits P (mret a).
Proof. intros s. exists []. split; [unfold delta; simpl; by rewrite app_nil_r | constructor]. Qed.

Lemma emits_lift P (r : result A) : emits P (lift r).
Proof. intros s. exists []. split; [unfold delta; simpl; by rewrite app_nil_r | constructor]. Qed.

Lemma emits_throw P e : emits P (throw (A:=A) e).
Proof. apply emits_lift. Qed.

Lemma emits_call (P : Call → Prop) c (r : result A) : P c → emits P (call c r).
Proof. intros Hc s. exists [(c, raised r)]. split; [reflexivity|]. by repeat constructor. Qed.

Lemma emits_bind P m k :
  emits P m → (∀ a, emits P (k a)) → emits P (m ≫= k).
Proof.
  intros Hm Hk s. unfold delta. rewrite run_bind.
  destruct (Hm s) as (n1 & D1 & F1). unfold delta in D1.
  destruct (run m s) as [[a|e] s1]; simpl in *; [|by eauto].
  destruct (Hk a s1) as (n2 & D2 & F2). unfold delta in D2.
  exists (n1 ++ n2). split.
  - by rewrite D2, D1, app_assoc.
  - by apply Forall_app.
Qed.

Lemma emits_with_as P (enter : M A) exit (body : A → M B) :
  emits P enter → (∀ a, emits P (body a)) → (∀ a, P (exit a)) →
  emits P (with_as enter exit body).
Proof.
  intros He Hb Hx. unfold with_as. apply emits_bind; [exact He|].
  intros a s. destruct (Hb a s) as (n & D & F). unfold delta in *. simpl.
  destruct (run (body a) s) as [r s1]. simpl in *.
  exists (n ++ [(exit a, None)]). split.
  - by rewrite D, app_assoc.
  - apply Forall_app. split; [done|]. constructor; [apply Hx | constructor].
Qed.

(** *** [propagates] *)
Lemma propagates_ret (a : A) : propagates (mret a).
Proof.
  intros s. exists []. split; [unfold delta; simpl; by rewrite app_nil_r|].
  left. constructor.
Qed.

Lemma propagates_lift (r : result A) : propagates (lift r).
Proof.
  intros s. exists []. split; [unfold delta; simpl; by rewrite app_nil_r|].
  left. constructor.
Qed.

Lemma propagates_throw e : propagates (throw (A:=A) e).
Proof. apply propagates_lift. Qed.

Lemma propagates_call c (r : result A) : propagates (call c r).
Proof.
  intros s. exists [(c, raised r)]. split; [reflexivity|].
  destruct r as [a|e]; simpl.
  - left. by repeat constructor.
  - right. exists [], c, e, []. repeat split; constructor.
Qed.

Lemma propagates_bind m k :
  propagates m → (∀ a, propagates (k a)) → propagates (m ≫= k).
Proof.
  intros Hm Hk s. unfold delta. rewrite run_bind.
  destruct (Hm s) as (n1 & D1 & P1). unfold delta in D1.
  destruct (run m s) as [[a|e] s1]; simpl in *.
  - destruct P1 as [Q1 | (pre & c & e & post & _ & _ & _ & ?)]; [|done].
    destruct (Hk a s1) as (n2 & D2 & P2). unfold delta in D2.
    exists (n1 ++ n2). split; [by rewrite D2, D1, app_assoc|].
    destruct P2 as [Q2 | (pre & c & e & post & -> & Qp & Fp & Hr)].
    + left. by apply Forall_app.
    + right. exists (n1 ++ pre), c, e, post.
      split; [by rewrite app_assoc|]. split; [by apply Forall_app|]. done.
  - exists n1. split; [done|].
    destruct P1 as [Q1 | (pre & c & e' & post & -> & Qp & Fp & Hr)]; [by left|].
    right. exists pre, c, e', post. repeat split; [assumption.. | congruence].
Qed.

Lemma propagates_with_as (enter : M A) exit (body : A → M B) :
  propagates enter → (∀ a, propagates (body a)) → (∀ a, is_exit (exit a)) →
  propagates (with_as enter exit body).
Proof.
  intros He Hb Hx. unfold with_as. apply propagates_bind; [exact He|].
  intros a s. destruct (Hb a s) as (n & D & P). unfold delta in *. simpl.
  destruct (run (body a) s) as [r s1]. simpl in *.
  exists (n ++ [(exit a, None)]). split; [by rewrite D, app_assoc|].
  destruct P as [Q | (pre & c & e & post & -> & Qp & Fp & Hr)].
  - left. apply Forall_app. split; [done|]. by repeat constructor.
  - right. exists pre, c, e, (post ++ [(exit a, None)]).
    split; [by rewrite <- app_assoc|]. split; [done|]. split; [|done].
    apply Forall_app. split; [done|].
    constructor; [split; [apply Hx | done] | constructor].
Qed.
End Structural.

Lemma preserves_assign (keep : string → Prop) name v :
  ¬ keep name → preserves keep (assign name v).
Proof.
  intros Hn s k Hk. simpl. apply lookup_insert_ne. intros ->. by apply Hn.
Qed.

Lemma preserves_load keep name : preserves keep (load name).
Proof. intros s k _. reflexivity. Qed.

Lemma emits_assign P name v : emits P (assign name v).
Proof. intros s. exists []. split; [unfold delta; simpl; by rewrite app_nil_r | constructor]. Qed.

Lemma emits_load P name : emits P (load name).
Proof. intros s. exists []. split; [unfold delta; simpl; by rewrite app_nil_r | constructor]. Qed.

Lemma propagates_assign name v : propagates (assign name v).
Proof.
  intros s. exists []. split; [unfold delta; simpl; by rewrite app_nil_r|]. left. constructor.
Qed.

Lemma propagates_load name : propagates (load name).
Proof.
  intros s. exists []. split; [unfold delta; simpl; by rewrite app_nil_r|]. left. constructor.
Qed.

Lemma preserves_for_each {A} keep (l : list A) body :
  (∀ x, preserves keep (body x)) → preserves keep (for_each l body).
Proof.
  intros Hb. induction l as [|x l IH]; [apply preserves_ret|].
  apply preserves_bind; [apply Hb | intros _; exact IH].
Qed.

Lemma emits_for_each {A} P (l : list A) body :
  (∀ x, emits P (body x)) → emits P (for_each l body).
Proof.
  intros Hb. induction l as [|x l IH]; [apply emits_ret|].
  apply emits_bind; [apply Hb | intros _; exact IH].
Qed.

Lemma propagates_for_each {A} (l : list A) body :
  (∀ x, propagates (body x)) → propagates (for_each l body).
Proof.
  intros Hb. induction l as [|x l IH]; [apply propagates_ret|].
  apply propagates_bind; [apply Hb | intros _; exact IH].
Qed.

Lemma preserves_expect {A} keep e (o : option A) : preserves keep (expect e o).
Proof. destruct o; [apply preserves_ret | apply preserves_throw]. Qed.

Lemma emits_expect {A} P e (o : option A) : emits P (expect e o).
Proof. destruct o; [apply emits_ret | apply emits_throw]. Qed.

Lemma propagates_expect {A} e (o : option A) : propagates (expect e o).
Proof. destruct o; [apply propagates_ret | apply propagates_throw]. Qed.

#[global] Hint Resolve preserves_expect emits_expect propagates_expect : nb.

#[global] Hint Resolve
  preserves_ret preserves_lift preserves_throw preserves_call preserves_load
  emits_ret emits_lift emits_throw emits_assign emits_load
  propagates_ret propagates_lift propagates_throw propagates_call
  propagates_assign propagates_load : nb.

(** Symbolic execution of a statement: unfold the monad, and settle the
    lookups of names that were just assigned. *)
Ltac exec :=
  repeat first
    [ progress cbn -[read_raster]
    | rewrite lookup_insert_eq
    | rewrite lookup_insert_ne by done ].

(** ** Cell [3]: the bounds of the drawn region *)

(** C9. Cell [3] with [draw_control.data] holding the drawn features: on an
    empty list it raises [IndexError] and changes nothing, so no bounds are
    bound; otherwise what it does is determined by the last feature alone:
    it calls [shape] on that feature's geometry and [bounds] on the shape,
    binds [bounds] to the answer and prints it, or raises what they raise. *)
Theorem bounds_from_last_drawn (L : Lib) (s : St) (data : list Feature) :
  ns s !! "draw_control" = Some (VDrawControl data) →
  let out := run (cell3 L) s in
  match last data with
  | None => out = (Raise IndexError, s)
  | Some feat =>
      match bounds_outcome L (feat_geometry feat) with
      | Ok b =>
          out.1 = Ok tt ∧ ns out.2 !! "bounds" = Some (VBounds b) ∧
          ∃ sh, log out.2 =
                log s ++ [ (CShape (feat_geometry feat), None);
                           (CBounds sh, None);
                           (CPrint (VBounds b), None) ]
      | Raise e => out.1 = Raise e
      end
  end.
Proof.
  intros H out. subst out. unfold cell3, bounds_outcome. cbn. rewrite H. cbn.
  unfold index_last. destruct (last data) as [feat|]; [|reflexivity].
  exec. destruct (shape L (feat_geometry feat)) as [sh|e]; [|reflexivity].
  exec. destruct (shape_bounds L sh) as [b|e] eqn:E; [|reflexivity].
  exec. repeat split. exists sh. by rewrite <- !app_assoc.
Qed.

Lemma bounds_from_last_drawn_witness :
  run (cell3 demo_lib) (initial []) = (Raise IndexError, initial []) ∧
  ns (run (cell3 demo_lib) (initial [elsewhere; south_america])).2 !! "bounds" =
    Some (VBounds (mkBounds (-100.5) (-57.25) (-31.75) 18.75)).
Proof.
  split.
  - exact (bounds_from_last_drawn demo_lib (initial []) [] eq_refl).
  - exact (proj1 (proj2 (bounds_from_last_drawn demo_lib
             (initial [elsewhere; south_america]) [elsewhere; south_america] eq_refl))).
Defined.

(** ** Cell [4]: the catalog listing *)

Lemma preserves_assign_in (names : list string) name v :
  name ∈ names → preserves (λ k, k ∉ names) (assign name v).
Proof. intros Hin. apply preserves_assign. intros Hn. by apply Hn. Qed.

#[global] Hint Resolve preserves_assign_in : nb.
#[global] Hint Extern 1 (_ ∈ _) => solve [repeat constructor] : nb.

Ltac not_in_names :=
  repeat (apply not_elem_of_cons; split; [done|]); apply not_elem_of_nil.

(** Statements are proved to have one of the three properties by
    following their structure; a branch on a value is met by cases. *)
Ltac structural_step :=
  lazymatch goal with
  | |- ∀ _, _ => intro
  | |- preserves _ (with_as _ _ _) => apply preserves_with_as
  | |- preserves _ (for_each _ _) => apply preserves_for_each
  | |- preserves _ (mbind _ _) => apply preserves_bind
  | |- emits _ (with_as _ _ _) => apply emits_with_as
  | |- emits _ (for_each _ _) => apply emits_for_each
  | |- emits _ (mbind _ _) => apply emits_bind
  | |- emits _ (call _ _) => apply emits_call; reflexivity
  | |- propagates (with_as _ _ _) => apply propagates_with_as
  | |- propagates (for_each _ _) => apply propagates_for_each
  | |- propagates (mbind _ _) => apply propagates_bind
  | |- context [if ?b then _ else _] => destruct b
  | |- context [match ?v with _ => _ end] => destruct v
  end.

Ltac structural := repeat first [ solve [eauto 2 with nb] | structural_step ].

Lemma check_key_preserves key : preserves (λ k, k ∉ listing_names) (check_key key).
Proof.
  unfold check_key, append_file_store, getitem, attr_to_dict, attr_item,
    to_dict_assets, as_str, as_strs, listing_names.
  structural.
Qed.

#[global] Hint Resolve check_key_preserves : nb.

Lemma visit_item_preserves it : preserves (λ k, k ∉ listing_names) (visit_item it).
Proof.
  unfold visit_item, for_keys, attr_to_dict, attr_item, to_dict_assets, listing_names.
  structural.
Qed.
(** The keys of a dict select their own entries. *)
Lemma picks_filter (m : gmap string Asset) ti (l : list (string * Asset)) :
  (∀ k a, (k, a) ∈ l → m !! k = Some a) →
  (k ← l.*1; if bool_decide (k = ti)
             then match m !! k with Some a => [href a] | None => [] end
             else []) =
  (λ p, href p.2) <$> filter (λ p, p.1 = ti) l.
Proof.
  induction l as [|[k a] l IH]; intros Hl; [reflexivity|].
  cbn. rewrite IH by (intros ???; apply Hl; by right).
  case_bool_decide; case_decide; try done.
  rewrite (Hl k a) by left. reflexivity.
Qed.

Lemma check_keys_run ti it acc (kl : list string) : ∀ s,
  (∀ k, k ∈ kl → is_Some (item_assets it !! k)) →
  ns s !! "target_item" = Some (VStr ti) →
  ns s !! "item" = Some (VItem it) →
  ns s !! "file_store" = Some (VStrs acc) →
  let picks := k ← kl; if bool_decide (k = ti)
                       then match item_assets it !! k with
                            | Some a => [href a] | None => [] end
                       else [] in
  ∃ s', run (for_each kl check_key) s = (Ok tt, s') ∧
        ns s' !! "target_item" = Some (VStr ti) ∧
        ns s' !! "file_store" = Some (VStrs (acc ++ picks)) ∧
        log s' = log s ++ ((λ _, (CToDict (item_id it), None)) <$> picks).
Proof.
  revert acc. induction kl as [|k kl IH]; intros acc s Hk Hti Hit Hfs.
  - exists s. cbn. by rewrite !app_nil_r.
  - cbn zeta. rewrite run_for_each_cons. unfold check_key at 1. exec.
    rewrite Hti. exec.
    destruct (Hk k) as [a Ha]; [left|].
    case_bool_decide as E.
    + exec. rewrite Hit. exec. unfold getitem. rewrite Ha. exec. rewrite Hfs. exec.
      edestruct (IH (acc ++ [href a])) as (s' & R & T & F & G); cycle 4.
      * exists s'. split; [exact R|]. split; [exact T|]. cbn zeta in F, G.
        rewrite F, G. cbn [log]. by rewrite <- !app_assoc.
      * intros k' ?. apply Hk. by right.
      * exec. exact Hti.
      * exec. exact Hit.
      * exec. reflexivity.
    + exec.
      edestruct (IH acc) as (s' & R & T & F & G); cycle 4.
      * exists s'. split; [exact R|]. split; [exact T|]. cbn zeta in F, G.
        by rewrite F, G.
      * intros k' ?. apply Hk. by right.
      * exec. exact Hti.
      * exec. exact Hit.
      * exec. exact Hfs.
Qed.

Lemma visit_items_run ti (items : list Item) : ∀ acc s,
  ns s !! "target_item" = Some (VStr ti) →
  ns s !! "file_store" = Some (VStrs acc) →
  ∃ s', run (for_each items visit_item) s = (Ok tt, s') ∧
        ns s' !! "target_item" = Some (VStr ti) ∧
        ns s' !! "file_store" = Some (VStrs (acc ++ (it ← items; asset_hrefs ti it))) ∧
        log s' = log s ++ (items ≫= item_log ti).
Proof.
  induction items as [|it items IH]; intros acc s Hti Hfs.
  - exists s. cbn. by rewrite !app_nil_r.
  - rewrite run_for_each_cons. unfold visit_item at 1, for_keys. exec.
    edestruct (check_keys_run ti it acc (map_to_list (item_assets it)).*1)
      as (s1 & R1 & T1 & F1 & G1); cycle 4.
    + rewrite R1. cbn zeta in F1, G1.
      rewrite (picks_filter (item_assets it)) in F1, G1
        by (intros k a; apply elem_of_map_to_list).
      destruct (IH (acc ++ asset_hrefs ti it) s1) as (s' & R & T & F & G); [done|done|].
      exists s'. split; [exact R|]. split; [exact T|].
      rewrite F, G, G1. cbn [log]. unfold item_log at 2, asset_hrefs.
      by rewrite <- !app_assoc.
    + intros k [[k' a] [-> Hin]]%list_elem_of_fmap.
      exists a. by apply elem_of_map_to_list.
    + exec. exact Hti.
    + exec. reflexivity.
    + exec. exact Hfs.
Qed.

Lemma for_collections_run tc ti (colls : list Collection) : ∀ acc s s',
  ns s !! "target_collection" = Some (VStr tc) →
  ns s !! "target_item" = Some (VStr ti) →
  ns s !! "file_store" = Some (VStrs acc) →
  run (for_collections colls) s = (Ok tt, s') →
  ns s' !! "file_store" = Some (VStrs (acc ++ listed tc ti colls)) ∧
  log s' = log s ++ listing_log tc ti colls.
Proof.
  unfold for_collections, listed, listing_log.
  induction colls as [|c colls IH]; intros acc s s' Htc Hti Hfs.
  - cbn. intros [= <-]. by rewrite !app_nil_r.
  - rewrite run_for_each_cons. unfold visit_collection at 1. exec. rewrite Htc. exec.
    unfold collection_log at 1.
    case_bool_decide as E; case_decide; try done.
    + exec. unfold items_of.
      destruct (coll_items c) as [items|e]; [|by exec].
      exec.
      edestruct (visit_items_run ti items acc) as (s1 & R1 & T1 & F1 & G1); cycle 2.
      * rewrite R1. intros R. rewrite app_assoc.
        edestruct (IH (acc ++ (items ≫= λ it, asset_hrefs ti it)) s1 s') as [F G];
          [| | |exact R|]; try done.
        { match type of R1 with
          | run _ ?st = _ =>
              pose proof (preserves_for_each _ items _ visit_item_preserves
                            st "target_collection" ltac:(not_in_names)) as K
          end.
          rewrite R1 in K. cbn in K. rewrite K. exec. exact Htc. }
        split; [exact F|]. rewrite G, G1. cbn [log]. by rewrite <- !app_assoc.
      * exec. exact Hti.
      * exec. exact Hfs.
    + exec. intros R.
      destruct (λ a b c, IH acc _ s' a b c R) as [F G]; [by exec..|].
      split; [exact F | exact G].
Qed.

Lemma list_assets_run url tc ti L s s' :
  run (list_assets url tc ti L) s = (Ok tt, s') →
  ∃ cat colls,
    Client_open L url = Ok cat ∧ cat_collections cat = Ok colls ∧
    ns s' !! "file_store" = Some (VStrs (listed tc ti colls)) ∧
    log s' = log s ++ [(CClientOpen url, None); (CGetCollections, None)]
                   ++ listing_log tc ti colls.
Proof.
  unfold list_assets. exec.
  destruct (Client_open L url) as [cat|e]; [|done]. exec.
  destruct (cat_collections cat) as [colls|e] eqn:Ec; [|done]. exec.
  intros R. exists cat, colls. split; [done|]. split; [done|].
  destruct (λ a b c, for_collections_run tc ti colls [] _ s' a b c R) as [F G];
    [by exec..|].
  split; [exact F|]. rewrite G. cbn [log]. by rewrite <- !app_assoc.
Qed.

Lemma filter_none {A} (P : A → Prop) `{∀ x, Decision (P x)} (l : list A) :
  Forall (λ x, ¬ P x) l → filter P l = [].
Proof.
  induction 1 as [|x l Hx _ IH]; [done|]. by rewrite filter_cons_False.
Qed.

(** An item contributes at most one URL, the one under the key: its
    assets are a dict, so the order in which its keys are visited does not
    show in [file_store]. *)
Lemma asset_hrefs_lookup ti it :
  asset_hrefs ti it =
  match item_assets it !! ti with Some a => [href a] | None => [] end.
Proof.
  unfold asset_hrefs. destruct (item_assets it !! ti) as [a|] eqn:E.
  - apply Permutation_singleton_r.
    rewrite <- (insert_delete_id (item_assets it) ti a E).
    rewrite map_to_list_insert by apply lookup_delete_eq.
    rewrite filter_cons_True by done. cbn.
    rewrite filter_none; [done|].
    apply Forall_forall. intros [k b] Hin%elem_of_map_to_list ?. cbn in *. subst k.
    by rewrite lookup_delete_eq in Hin.
  - rewrite filter_none; [done|].
    apply Forall_forall. intros [k b] Hin%elem_of_map_to_list ?. cbn in *. subst k.
    congruence.
Qed.

(** C3. When the catalog query of cell [4] completes, [file_store] is the
    list of the ['href'] of every asset whose key is the target item key,
    over the items of every collection whose id is the target collection
    id, in the order the catalog yields collections and items; nothing else
    is in it. *)
Theorem file_store_lists_matching_assets (url tc ti : string) (L : Lib) (s s' : St) :
  run (list_assets url tc ti L) s = (Ok tt, s') →
  ∃ cat colls,
    Client_open L url = Ok cat ∧ cat_collections cat = Ok colls ∧
    ns s' !! "file_store" = Some (VStrs (listed tc ti colls)).
Proof.
  intros R. destruct (list_assets_run _ _ _ _ _ _ R) as (cat & colls & ? & ? & ? & _).
  by exists cat, colls.
Qed.

Lemma file_store_lists_matching_assets_witness :
  ns (run (cell4 demo_lib) (initial [])).2 !! "file_store" = Some (VStrs demo_files).
Proof.
  destruct (file_store_lists_matching_assets catalog_url target_collection target_item
              demo_lib (initial []) (run (cell4 demo_lib) (initial [])).2)
    as (cat & colls & Hc & Hl & ->).
  - vm_compute. reflexivity.
  - injection Hc as <-. injection Hl as <-. vm_compute. reflexivity.
Defined.

(** ** Statements that do not depend on the state *)

Section Stateless.
Context {A B : Type}.

Lemma stateless_lift (r : result A) : stateless (lift r).
Proof. intros [n l]. unfold outcome, calls. cbn. by rewrite app_nil_r. Qed.

Lemma stateless_ret (a : A) : stateless (mret a).
Proof. apply (stateless_lift (Ok a)). Qed.

Lemma stateless_call c (r : result A) : stateless (call c r).
Proof. intros s. reflexivity. Qed.

Lemma stateless_bind (m : M A) (k : A → M B) :
  stateless m → (∀ a, stateless (k a)) → stateless (m ≫= k).
Proof.
  intros Hm Hk s. unfold outcome, calls. rewrite !run_bind, (Hm s), (Hm empty_state).
  destruct (outcome m) as [a|e]; cbn.
  - rewrite (Hk a), (Hk a (mkSt ∅ (calls m))). cbn. by rewrite app_assoc.
  - reflexivity.
Qed.

Lemma outcome_bind (m : M A) (k : A → M B) :
  stateless m → (∀ a, stateless (k a)) →
  outcome (m ≫= k) =
  match outcome m with Ok a => outcome (k a) | Raise e => Raise e end.
Proof.
  intros Hm Hk. unfold outcome at 1. rewrite run_bind, (Hm empty_state).
  destruct (outcome m) as [a|e]; cbn; [|done]. by rewrite (Hk a).
Qed.

Lemma calls_bind (m : M A) (k : A → M B) :
  stateless m → (∀ a, stateless (k a)) →
  calls (m ≫= k) =
  calls m ++ match outcome m with Ok a => calls (k a) | Raise e => [] end.
Proof.
  intros Hm Hk. unfold calls at 1. rewrite run_bind, (Hm empty_state).
  destruct (outcome m) as [a|e]; cbn; [|by rewrite app_nil_r]. by rewrite (Hk a).
Qed.
End Stateless.

#[global] Hint Resolve stateless_lift stateless_ret stateless_call stateless_bind : nb.

Lemma read_raster_stateless L f w : stateless (read_raster L f w).
Proof.
  unfold read_raster, open_dataset, isel, expand_dims, attr_window, throw.
  repeat first
    [ match goal with |- ∀ _, _ => intro end
    | solve [eauto 3 with nb]
    | apply stateless_bind
    | case_match ].
Qed.

(** ** Cell [9]: the stacking loop *)

Lemma stack_one_first L f w s :
  ns s !! "first_run" = Some (VBool true) →
  ns s !! "window" = Some w →
  run (stack_one L f) s =
  match outcome (read_raster L f w) with
  | Ok d =>
      (Ok tt, mkSt (<["first_run" := VBool false]>
                      (<["datacube" := VCube d]> (<["f" := VStr f]> (ns s))))
                   (log s ++ calls (read_raster L f w)))
  | Raise e =>
      (Raise e, mkSt (<["f" := VStr f]> (ns s)) (log s ++ calls (read_raster L f w)))
  end.
Proof.
  intros Hfr Hw. unfold stack_one. exec. rewrite Hfr. exec. rewrite Hw. exec.
  rewrite run_bind, read_raster_stateless. by destruct (outcome (read_raster L f w)).
Qed.

Lemma stack_one_later L f w acc s :
  ns s !! "first_run" = Some (VBool false) →
  ns s !! "window" = Some w →
  ns s !! "datacube" = Some (VCube acc) →
  run (stack_one L f) s =
  match outcome (read_raster L f w) with
  | Ok d =>
      (Ok tt, mkSt (<["datacube" := VCube (concat_cubes acc d)]>
                      (<["d" := VCube d]> (<["f" := VStr f]> (ns s))))
                   (log s ++ calls (read_raster L f w)
                          ++ [(CConcat (VCube acc) (VCube d), None)]))
  | Raise e =>
      (Raise e, mkSt (<["f" := VStr f]> (ns s)) (log s ++ calls (read_raster L f w)))
  end.
Proof.
  intros Hfr Hw Hdc. unfold stack_one. exec. rewrite Hfr. exec. rewrite Hw. exec.
  rewrite run_bind, read_raster_stateless. destruct (outcome (read_raster L f w)); [|done].
  exec. rewrite Hdc. exec. by rewrite <- app_assoc.
Qed.

(** The loop from its steady state. *)
Lemma stack_steady L w (fs : list string) : ∀ acc s,
  ns s !! "first_run" = Some (VBool false) →
  ns s !! "window" = Some w →
  ns s !! "datacube" = Some (VCube acc) →
  let out := run (for_each fs (stack_one L)) s in
  log out.2 = log s ++ stack_log L w acc fs ∧
  match stack_value L w acc fs with
  | Ok c => out.1 = Ok tt ∧ ns out.2 !! "datacube" = Some (VCube c)
  | Raise e => out.1 = Raise e
  end.
Proof.
  induction fs as [|f fs IH]; intros acc s Hfr Hw Hdc.
  - cbn. by rewrite app_nil_r.
  - cbn zeta. rewrite run_for_each_cons, (stack_one_later L f w acc) by done.
    cbn [stack_log stack_value].
    destruct (outcome (read_raster L f w)) as [d|e]; [|cbn; by rewrite app_nil_r].
    edestruct (IH (concat_cubes acc d)) as [Hl Hv]; cycle 3.
    + cbn zeta in Hl, Hv. rewrite Hl. cbn [log]. split; [|exact Hv].
      by rewrite <- !app_assoc.
    + by exec.
    + by exec.
    + by exec.
Qed.

(** The whole cell. *)
Lemma cell9_run L s fs w :
  ns s !! "file_store" = Some (VStrs fs) →
  ns s !! "window" = Some w →
  let out := run (cell9 L) s in
  log out.2 = log s ++ cell9_log L w fs ∧
  match cell9_value L w fs with
  | Ok None => out.1 = Ok tt ∧ ns out.2 !! "datacube" = ns s !! "datacube"
  | Ok (Some c) => out.1 = Ok tt ∧ ns out.2 !! "datacube" = Some (VCube c)
  | Raise e => out.1 = Raise e
  end.
Proof.
  intros Hfs Hw. unfold cell9. exec. rewrite Hfs. exec.
  destruct fs as [|f fs].
  - exec. by rewrite app_nil_r.
  - rewrite run_for_each_cons, (stack_one_first L f w) by by exec.
    cbn [cell9_log cell9_value].
    destruct (outcome (read_raster L f w)) as [d|e]; [|cbn; by rewrite app_nil_r].
    edestruct (stack_steady L w fs d) as [Hl Hv]; cycle 3.
    + cbn zeta in Hl, Hv. rewrite Hl. cbn [log]. split; [by rewrite <- app_assoc|].
      by destruct (stack_value L w d fs).
    + by exec.
    + by exec.
    + by exec.
Qed.
(** ** [read_raster] *)

Lemma read_raster_times L f v d :
  outcome (read_raster L f v) = Ok d →
  file_times L f = Ok (cube_time d).
Proof.
  unfold outcome, read_raster, file_times, open_dataset, isel, expand_dims, attr_window.
  cbn. repeat (case_match; cbn; try done).
  all: intros [= <-]; unfold cube_time, stamped; rewrite <- list_fmap_compose; symmetry; f_equal; apply list_fmap_id.
Qed.

(** The loop computes a left fold of [concat] over the reads. *)
Lemma stack_value_fold L w (fs : list string) : ∀ acc,
  stack_value L w acc fs =
  match comprehension (λ f, outcome (read_raster L f w)) fs with
  | Ok ds => Ok (fold_left concat_cubes ds acc)
  | Raise e => Raise e
  end.
Proof.
  induction fs as [|f fs IH]; intros acc; [reflexivity|].
  cbn [stack_value comprehension].
  destruct (outcome (read_raster L f w)) as [d|e]; [|reflexivity].
  rewrite IH. by destruct (comprehension _ fs).
Qed.

Lemma cell9_value_fold L w (fs : list string) :
  cell9_value L w fs =
  match comprehension (λ f, outcome (read_raster L f w)) fs with
  | Ok [] => Ok None
  | Ok (d :: ds) => Ok (Some (fold_left concat_cubes ds d))
  | Raise e => Raise e
  end.
Proof.
  destruct fs as [|f fs]; [reflexivity|].
  cbn [cell9_value comprehension].
  destruct (outcome (read_raster L f w)) as [d|e]; [|reflexivity].
  rewrite stack_value_fold. by destruct (comprehension _ fs).
Qed.

Lemma comprehension_length {A B} (g : A → result B) l ys :
  comprehension g l = Ok ys → length ys = length l.
Proof.
  revert ys. induction l as [|x l IH]; intros ys; cbn.
  - by intros [= <-].
  - destruct (g x); [|done]. destruct (comprehension g l); [|done].
    intros [= <-]. cbn. f_equal. by apply IH.
Qed.

Lemma comprehension_Forall2 {A B} (g : A → result B) l ys :
  comprehension g l = Ok ys → Forall2 (λ x y, g x = Ok y) l ys.
Proof.
  revert ys. induction l as [|x l IH]; intros ys; cbn.
  - intros [= <-]. constructor.
  - destruct (g x) eqn:E; [|done]. destruct (comprehension g l); [|done].
    intros [= <-]. constructor; [done|]. by apply IH.
Qed.

(** C8. Cell [9], run with [file_store] bound to a list of URLs: on an
    empty list it completes and leaves [datacube] as it was (unbound, if it
    was unbound); on a non-empty list it ends as the list comprehension
    [[read_raster(f, window) for f in file_store]] does, with the same
    exception if a read raises, and otherwise with [datacube] bound to the
    left fold of [concat] over the reads, in list order. *)
Theorem stacking_loop_is_left_fold (L : Lib) (s : St) (fs : list string) (w : pyval) :
  ns s !! "file_store" = Some (VStrs fs) →
  ns s !! "window" = Some w →
  let out := run (cell9 L) s in
  match fs with
  | [] => out.1 = Ok tt ∧ ns out.2 !! "datacube" = ns s !! "datacube"
  | _ :: _ =>
      match comprehension (λ f, outcome (read_raster L f w)) fs with
      | Ok (d :: ds) =>
          out.1 = Ok tt ∧
          ns out.2 !! "datacube" = Some (VCube (fold_left concat_cubes ds d))
      | Ok [] => False
      | Raise e => out.1 = Raise e
      end
  end.
Proof.
  intros Hfs Hw out.
  destruct (cell9_run L s fs w Hfs Hw) as [_ Hv]. fold out in Hv.
  rewrite cell9_value_fold in Hv.
  destruct fs as [|f fs]; [exact Hv|].
  destruct (comprehension _ (f :: fs)) as [[|d ds]|e] eqn:E; try exact Hv.
  by apply comprehension_length in E.
Qed.

Lemma stacking_loop_witness :
  let s := prepared demo_lib [elsewhere; south_america] in
  (run (cell9 demo_lib) s).1 = Ok tt ∧
  ns (run (cell9 demo_lib) s).2 !! "datacube" = Some (VCube demo_cube).
Proof.
  exact (stacking_loop_is_left_fold demo_lib
           (prepared demo_lib [elsewhere; south_america])
           demo_files (VWindow demo_window) eq_refl eq_refl).
Defined.

(** ** Every cell: names rebound, exceptions let through *)

Ltac unfold_cells :=
  unfold notebook, cell3, cell4, list_assets, for_collections, visit_collection,
    visit_item, for_keys, check_key, append_file_store, getitem, attr_to_dict,
    to_dict_assets, cell5, cell6, bounds_at, cell7, read_raster, open_dataset,
    isel, expand_dims, concat, cell9, stack_one, cell10, cell11,
    as_str, as_strs, as_bounds, attr_data, attr_window, attr_stats,
    attr_viewer, attr_src, attr_shape, attr_item, attr_collection, attr_catalog,
    as_items.

Lemma cell3_preserves L : preserves (λ k, k ∉ cell3_names) (cell3 L).
Proof. unfold cell3_names. unfold_cells. structural. Qed.

Lemma cell4_preserves L : preserves (λ k, k ∉ cell4_names) (cell4 L).
Proof. unfold cell4_names. unfold_cells. structural. Qed.

Lemma cell5_preserves : preserves (λ k, True) cell5.
Proof. unfold_cells. structural. Qed.

Lemma cell6_preserves L : preserves (λ k, k ∉ cell6_names) (cell6 L).
Proof. unfold cell6_names. unfold_cells. structural. Qed.

Lemma cell7_preserves : preserves (λ k, True) cell7.
Proof. unfold_cells. structural. Qed.

Lemma read_raster_preserves keep L f w : preserves keep (read_raster L f w).
Proof.
  intros s k _. by rewrite read_raster_stateless.
Qed.

Lemma cell9_preserves L : preserves (λ k, k ∉ cell9_names) (cell9 L).
Proof.
  unfold cell9_names, cell9, stack_one, concat, as_str, as_strs.
  pose proof (λ f w, read_raster_preserves (λ k, k ∉ ["first_run"; "f"; "datacube"; "d"]) L f w).
  structural.
Qed.

Lemma cell10_preserves L : preserves (λ k, k ∉ viewer_names) (cell10 L).
Proof. unfold viewer_names. unfold_cells. structural. Qed.

Lemma cell11_preserves L : preserves (λ k, k ∉ viewer_names) (cell11 L).
Proof. unfold viewer_names. unfold_cells. structural. Qed.

Lemma is_exit_close url : is_exit (CClose url).
Proof. by exists url. Qed.
#[global] Hint Resolve is_exit_close : nb.

Lemma read_raster_propagates L f w : propagates (read_raster L f w).
Proof. unfold_cells. structural. Qed.

Lemma cell3_propagates L : propagates (cell3 L).
Proof. unfold_cells. structural. Qed.

Lemma cell4_propagates L : propagates (cell4 L).
Proof. unfold_cells. structural. Qed.

Lemma cell5_propagates : propagates cell5.
Proof. unfold_cells. structural. Qed.

Lemma cell6_propagates L : propagates (cell6 L).
Proof. unfold_cells. structural. Qed.

Lemma cell7_propagates : propagates cell7.
Proof. unfold_cells. structural. Qed.

Lemma cell9_propagates L : propagates (cell9 L).
Proof.
  unfold cell9, stack_one, concat, as_str, as_strs.
  pose proof (read_raster_propagates L). structural.
Qed.

Lemma cell10_propagates L : propagates (cell10 L).
Proof. unfold_cells. structural. Qed.

Lemma cell11_propagates L : propagates (cell11 L).
Proof. unfold_cells. structural. Qed.

#[global] Hint Resolve cell3_propagates cell4_propagates cell5_propagates
  cell6_propagates cell7_propagates cell9_propagates cell10_propagates
  cell11_propagates : nb.




(** X14. Each cell rebinds only its own names: every other binding of the
    namespace is after the cell what it was before, whether the cell
    completes or raises. Cell [9] binds [first_run], [f], [datacube] and [d];
    in particular it leaves [bounds], [file_store], [window] and [stats] as
    they were. What the libraries a cell calls do outside the namespace
    (to files, to the network) is not part of this statement. *)
Theorem cells_rebind_only_their_names (L : Lib) :
  preserves (λ k, k ∉ cell3_names) (cell3 L) ∧
  preserves (λ k, k ∉ cell4_names) (cell4 L) ∧
  preserves (λ k, True) cell5 ∧
  preserves (λ k, k ∉ cell6_names) (cell6 L) ∧
  preserves (λ k, True) cell7 ∧
  preserves (λ k, k ∉ cell9_names) (cell9 L) ∧
  preserves (λ k, k ∉ viewer_names) (cell10 L) ∧
  preserves (λ k, k ∉ viewer_names) (cell11 L) ∧
  ∀ s, let s' := (run (cell9 L) s).2 in
       ns s' !! "bounds" = ns s !! "bounds" ∧
       ns s' !! "file_store" = ns s !! "file_store" ∧
       ns s' !! "window" = ns s !! "window" ∧
       ns s' !! "stats" = ns s !! "stats".
Proof.
  split; [apply cell3_preserves|]. split; [apply cell4_preserves|].
  split; [apply cell5_preserves|]. split; [apply cell6_preserves|].
  split; [apply cell7_preserves|]. split; [apply cell9_preserves|].
  split; [apply cell10_preserves|]. split; [apply cell11_preserves|].
  intros s s'. subst s'.
  repeat split; apply cell9_preserves; unfold cell9_names; not_in_names.
Qed.



(** ** [read_raster]: what a window selects *)

Lemma slice_bound_range n i : 0 ≤ n → 0 ≤ slice_bound n i ≤ n.
Proof. unfold slice_bound. case_decide; lia. Qed.

(** A slice of the positions [0 .. n-1] is a run of consecutive positions
    between the clipped bounds. *)
Lemma py_slice_seqZ (a b : Z) (n : nat) :
  py_slice a b (seqZ 0 (Z.of_nat n)) =
  seqZ (slice_bound (Z.of_nat n) a)
       (slice_bound (Z.of_nat n) b - slice_bound (Z.of_nat n) a).
Proof.
  unfold py_slice. rewrite length_seqZ, Nat2Z.id.
  pose proof (slice_bound_range (Z.of_nat n) a ltac:(lia)) as Ha.
  pose proof (slice_bound_range (Z.of_nat n) b ltac:(lia)) as Hb.
  set (lo := slice_bound (Z.of_nat n) a) in *.
  set (hi := slice_bound (Z.of_nat n) b) in *.
  clearbody lo hi.
  destruct (decide (hi ≤ lo)) as [Hle|Hlt].
  - replace (Z.to_nat (hi - lo)) with 0%nat by lia. by rewrite (seqZ_nil lo) by lia.
  - replace (Z.of_nat n) with (lo + ((hi - lo) + (Z.of_nat n - hi))) by lia.
    rewrite seqZ_app, seqZ_app by lia.
    rewrite drop_app_length' by (rewrite length_seqZ; lia).
    rewrite take_app_length' by (rewrite length_seqZ; lia).
    by rewrite Z.add_0_l.
Qed.

Lemma py_slice_in_range (a b : Z) (n : nat) :
  0 ≤ a ≤ b → b ≤ Z.of_nat n →
  py_slice a b (seqZ 0 (Z.of_nat n)) = seqZ a (b - a).
Proof.
  intros Ha Hb. rewrite py_slice_seqZ. unfold slice_bound.
  repeat case_decide; try lia. by rewrite !Z.min_l by lia.
Qed.

(** [int] truncates toward zero: a finite float is [±m·2^e], and its
    integer value is the quotient rounded toward zero. *)
Lemma py_int_truncates (x : float) (s : bool) (m : positive) (e : Z) :
  Prim2SF x = S754_finite s m e →
  py_int x =
  Ok (if decide (0 ≤ e)
      then (if s then Z.neg m else Z.pos m) * 2 ^ e
      else (if s then Z.neg m else Z.pos m) ÷ 2 ^ (- e)).
Proof.
  intros E. unfold py_int. rewrite E. f_equal. case_decide as He.
  - rewrite Z.shiftl_mul_pow2 by done. destruct s; lia.
  - rewrite Z.shiftl_div_pow2 by lia.
    assert (0 < 2 ^ (- e)) by (apply Z.pow_pos_nonneg; lia).
    destruct s.
    + change (Z.neg m) with (- Z.pos m). rewrite Z.quot_opp_l by lia.
      by rewrite Z.quot_div_nonneg by lia.
    + by rewrite Z.quot_div_nonneg by lia.
Qed.

Lemma read_raster_outcome L f v (cols rows : nat) ts :
  raster_shape L f = Ok (cols, rows) →
  file_times L f = Ok ts →
  outcome (read_raster L f v) =
  if truthy v then
    match v with
    | VWindow w =>
        match window_slices w with
        | Ok (x, y) => Ok (stamped (selected (whole f cols rows) x y) ts)
        | Raise e => Raise e
        end
    | _ => Raise AttributeError
    end
  else Ok (stamped (whole f cols rows) ts).
Proof.
  unfold file_times, window_slices, outcome, read_raster, open_dataset, isel,
    expand_dims, attr_window.
  intros -> Ht. cbn.
  destruct (truthy v); cbn.
  - destruct v; cbn; try done.
    repeat (case_match; cbn; try done); congruence.
  - repeat (case_match; cbn; try done); congruence.
Qed.

(** C5 (amended). For a file that opens as a [cols] by [rows] raster:
    with a window that is false in a condition ([None] among them)
    [read_raster] returns the whole raster, stamped with the file's
    timestamps; with a window it applies the positional slices
    [int(col_off) : int(col_off + width)] and
    [int(row_off) : int(row_off + height)], which select exactly the
    indices from the first bound inclusive to the second exclusive when
    the bounds lie inside the raster ([0 <= start <= stop <= size]).
    [int] truncates toward zero, and the number of selected columns can
    exceed [int(width)] by one, as it does for the notebook's own window. *)
Theorem read_raster_window_selection
    (L : Lib) (file_url : string) (cols rows : nat) (ts : list Timestamp) :
  raster_shape L file_url = Ok (cols, rows) →
  file_times L file_url = Ok ts →
  (∀ v, truthy v = false →
        outcome (read_raster L file_url v) = Ok (stamped (whole file_url cols rows) ts)) ∧
  (∀ w x0 x1 y0 y1,
     py_int (col_off w) = Ok x0 → py_int (col_off w + width w)%float = Ok x1 →
     py_int (row_off w) = Ok y0 → py_int (row_off w + height w)%float = Ok y1 →
     ∃ r, outcome (read_raster L file_url (VWindow w)) = Ok (stamped r ts) ∧
          r_source r = file_url ∧
          r_x r = py_slice x0 x1 (seqZ 0 (Z.of_nat cols)) ∧
          r_y r = py_slice y0 y1 (seqZ 0 (Z.of_nat rows)) ∧
          (0 ≤ x0 ≤ x1 → x1 ≤ Z.of_nat cols → r_x r = seqZ x0 (x1 - x0)) ∧
          (0 ≤ y0 ≤ y1 → y1 ≤ Z.of_nat rows → r_y r = seqZ y0 (y1 - y0))) ∧
  (∀ x s m e, Prim2SF x = S754_finite s m e →
     py_int x = Ok (if decide (0 ≤ e)
                    then (if s then Z.neg m else Z.pos m) * 2 ^ e
                    else (if s then Z.neg m else Z.pos m) ÷ 2 ^ (- e))) ∧
  (∃ w x0 x1 n,
     py_int (col_off w) = Ok x0 ∧ py_int (col_off w + width w)%float = Ok x1 ∧
     py_int (width w) = Ok n ∧ x1 - x0 = n + 1).
Proof.
  intros Hshape Htimes. split; [|split; [|split]].
  - intros v Hv. by rewrite (read_raster_outcome L file_url v cols rows ts), Hv.
  - intros w x0 x1 y0 y1 Hx0 Hx1 Hy0 Hy1.
    exists (selected (whole file_url cols rows) (x0, x1) (y0, y1)).
    rewrite (read_raster_outcome L file_url _ cols rows ts) by done.
    unfold window_slices. rewrite Hx0, Hx1, Hy0, Hy1. cbn.
    repeat split; intros; by apply py_slice_in_range.
  - apply py_int_truncates.
  - exists notebook_window, 9553, 17777, 8223. by vm_compute.
Qed.

Lemma read_raster_window_selection_witness :
  ∃ r, outcome (read_raster demo_lib url_2000 (VWindow demo_window)) =
         Ok (stamped r [year_end 2000]) ∧
       r_x r = seqZ 7 7 ∧ r_y r = seqZ 7 7.
Proof.
  destruct (proj1 (proj2 (read_raster_window_selection demo_lib url_2000 36 18
                            [year_end 2000] eq_refl eq_refl))
              demo_window 7 14 7 14 eq_refl eq_refl eq_refl eq_refl)
    as (r & Ho & _ & _ & _ & Hx & Hy).
  exists r. split; [exact Ho|]. split; [apply Hx; lia | apply Hy; lia].
Defined.

(** C5 as stated fails for a window that leaves the raster: for a window
    starting 2.5 columns west of the grid the slice bounds are -2 and 2, the
    negative bound counts from the east edge, and no column is selected
    instead of the four columns from -2 to 1. *)
Lemma read_raster_window_off_grid : ¬ selects_exactly demo_lib url_2000 window_west.
Proof.
  intros H.
  specialize (H (-2) 2 3 7 [(year_end 2000, mkRaster url_2000 [] (seqZ 3 4))]
                eq_refl eq_refl).
  apply Forall_cons in H as [[Hx _] _]. vm_compute in Hx. discriminate Hx.
Qed.

(** ** The cells one after another *)

Lemma run_seq_ok {A B} (m : M A) (k : A → M B) s b s' :
  run (m ≫= k) s = (Ok b, s') →
  ∃ a s1, run m s = (Ok a, s1) ∧ run (k a) s1 = (Ok b, s').
Proof.
  rewrite run_bind. destruct (run m s) as [[a|e] s1]; [|done]. eauto.
Qed.

Lemma cell5_run s s' : run cell5 s = (Ok tt, s') → s' = s.
Proof. unfold cell5. cbn. destruct (ns s !! "file_store"); cbn; congruence. Qed.

Lemma cell7_run s s' : run cell7 s = (Ok tt, s') → s' = s.
Proof. unfold cell7. cbn. destruct (ns s !! "stats"); cbn; congruence. Qed.

(** Cell [6], when it completes. *)
Lemma cell6_run L s s' :
  run (cell6 L) s = (Ok tt, s') →
  ∃ f0 rest b src w st,
    ns s !! "file_store" = Some (VStrs (f0 :: rest)) ∧
    ns s !! "bounds" = Some (VBounds b) ∧
    rasterio_open L f0 = Ok src ∧
    from_bounds L (minx b) (miny b) (maxx b) (maxy b) (src_transform src) = Ok w ∧
    src_statistics src 1 = Ok st ∧
    ns s' = <["stats" := VStats st]>
              (<["window" := VWindow w]> (<["src" := VSrc src]> (ns s))) ∧
    log s' = log s ++
      [ (CRasterioOpen f0, None);
        (CFromBounds (minx b) (miny b) (maxx b) (maxy b) (src_transform src), None);
        (CStatistics (src_url src) 1, None);
        (CClose (src_url src), None) ].
Proof.
  unfold cell6, with_as, bounds_at. exec.
  destruct (ns s !! "file_store") as [[]|] eqn:Hfs; exec; try done.
  destruct l as [|f0 rest]; exec; [done|].
  destruct (rasterio_open L f0) as [src|e] eqn:Hsrc; exec; [|done].
  destruct (ns s !! "bounds") as [[]|] eqn:Hb; exec; try done.
  repeat first [rewrite Hb | progress exec].
  destruct (from_bounds L _ _ _ _ _) as [w|e] eqn:Hw; exec; [|done].
  destruct (src_statistics src 1) as [st|e] eqn:Hst; exec; [|done].
  intros [= <-]. exists f0, rest, b, src, w, st. cbn.
  repeat split; try done. by rewrite <- !app_assoc.
Qed.

Lemma cell10_run L s s' :
  run (cell10 L) s = (Ok tt, s') →
  ∃ lo hi, ns s' = <["viewer" := VViewer []]> (ns s) ∧
           log s' = log s ++ [(CViewer lo hi, None)].
Proof.
  unfold cell10. exec.
  destruct (ns s !! "stats") as [[]|] eqn:Hst; exec; try done.
  repeat first [rewrite Hst | progress exec].
  match goal with |- context [Viewer L ?a ?b] => destruct (Viewer L a b) as [[]|e] end;
    exec; [|done].
  intros [= <-]. eauto.
Qed.

Lemma cell11_run L s s' :
  run (cell11 L) s = (Ok tt, s') →
  ∃ c, ns s !! "datacube" = Some (VCube c) ∧
       ns s' !! "datacube" = Some (VCube c) ∧
       log s' = log s ++ [(CAddDataset (VCube c) "mydata", None); (CShow, None)].
Proof.
  unfold cell11. exec.
  destruct (ns s !! "viewer") as [[]|] eqn:Hv; exec; try done.
  destruct (ns s !! "datacube") as [v|] eqn:Hdc; exec; [|done].
  destruct v; exec; try done.
  destruct (add_dataset L c "mydata") as [id|e]; exec; [|done].
  destruct (show L) as [[]|e]; exec; [|done].
  intros [= <-]. exists c. cbn. rewrite lookup_insert_ne by done.
  repeat split; try done. by rewrite <- !app_assoc.
Qed.

(** ** The order of the calls *)

Lemma staged_of_emits {A} p (m : M A) : emits (λ c, phase c = p) m → staged p p m.
Proof.
  intros Hm s. destruct (Hm s) as (new & D & F). exists new. split; [done|]. split.
  - eapply Forall_impl; [exact F|]. cbn. lia.
  - unfold in_order. clear D. induction F as [|ev new Hev F IH]; constructor; [done|].
    eapply Forall_impl; [exact F|]. cbn in *. lia.
Qed.

Lemma staged_weaken {A} lo hi lo' hi' (m : M A) :
  staged lo hi m → (lo' ≤ lo)%nat → (hi ≤ hi')%nat → staged lo' hi' m.
Proof.
  intros Hm ?? s. destruct (Hm s) as (new & D & F & S). exists new.
  split; [done|]. split; [|done]. eapply Forall_impl; [exact F|]. cbn. lia.
Qed.

Lemma staged_bind {A B} lo mid hi (m : M A) (k : A → M B) :
  staged lo mid m → (∀ a, staged mid hi (k a)) → (lo ≤ mid)%nat → (mid ≤ hi)%nat →
  staged lo hi (m ≫= k).
Proof.
  intros Hm Hk ?? s. unfold delta. rewrite run_bind.
  destruct (Hm s) as (n1 & D1 & F1 & S1). unfold delta in D1.
  destruct (run m s) as [[a|e] s1]; cbn in *.
  - destruct (Hk a s1) as (n2 & D2 & F2 & S2). unfold delta in D2.
    exists (n1 ++ n2). split; [by rewrite D2, D1, app_assoc|]. split.
    + apply Forall_app. split; (eapply Forall_impl; [eassumption|]); cbn; lia.
    + apply StronglySorted_app_2; [|done..].
      intros x1 x2 H1 H2.
      apply (proj1 (Forall_forall _ _) F1) in H1.
      apply (proj1 (Forall_forall _ _) F2) in H2. cbn in *. lia.
  - exists n1. split; [done|]. split; [|done].
    eapply Forall_impl; [exact F1|]. cbn. lia.
Qed.

Lemma cell3_emits L : emits (λ c, phase c = 1%nat) (cell3 L).
Proof. unfold_cells. structural. Qed.

Lemma for_collections_emits colls : emits (λ c, phase c = 3%nat) (for_collections colls).
Proof. unfold_cells. structural. Qed.

Lemma cell5_emits p : emits (λ c, phase c = p) cell5.
Proof. unfold_cells. structural. Qed.

Lemma cell6_emits L : emits (λ c, phase c = 4%nat) (cell6 L).
Proof. unfold_cells. structural. Qed.

Lemma cell7_emits p : emits (λ c, phase c = p) cell7.
Proof. unfold_cells. structural. Qed.

Lemma cell9_emits L : emits (λ c, phase c = 5%nat) (cell9 L).
Proof. do 2 unfold_cells. structural. Qed.

Lemma cell10_emits L : emits (λ c, phase c = 7%nat) (cell10 L).
Proof. unfold_cells. structural. Qed.

Lemma cell11_emits L : emits (λ c, phase c = 7%nat) (cell11 L).
Proof. unfold_cells. structural. Qed.

Lemma cell4_staged L : staged 2 3 (cell4 L).
Proof.
  unfold cell4, list_assets, as_str, attr_catalog.
  repeat (apply (staged_bind 2 2 3);
          [apply staged_of_emits; structural | intros | lia | lia]).
  apply (staged_weaken 3 3); [|lia..].
  apply staged_of_emits, for_collections_emits.
Qed.

Lemma notebook_staged L : staged 1 7 (notebook L).
Proof.
  unfold notebook.
  apply (staged_bind 1 1 7); [apply staged_of_emits, cell3_emits | intros _ | lia..].
  apply (staged_bind 1 3 7);
    [apply (staged_weaken 2 3); [apply cell4_staged | lia..] | intros _ | lia..].
  apply (staged_bind 3 3 7); [apply staged_of_emits, cell5_emits | intros _ | lia..].
  apply (staged_bind 3 4 7);
    [apply (staged_weaken 4 4); [apply staged_of_emits, cell6_emits | lia..]
    | intros _ | lia..].
  apply (staged_bind 4 4 7); [apply staged_of_emits, cell7_emits | intros _ | lia..].
  apply (staged_bind 4 5 7);
    [apply (staged_weaken 5 5); [apply staged_of_emits, cell9_emits | lia..]
    | intros _ | lia..].
  apply (staged_bind 5 7 7);
    [apply (staged_weaken 7 7); [apply staged_of_emits, cell10_emits | lia..]
    | intros _ | lia..].
  apply staged_of_emits, cell11_emits.
Qed.

Lemma emits_log {A} P (m : M A) s r s' :
  emits P m → run m s = (r, s') →
  ∃ new, log s' = log s ++ new ∧ Forall (λ ev, P ev.1) new.
Proof.
  intros Hm R. destruct (Hm s) as (new & D & F). unfold delta in D.
  rewrite R in D. eauto.
Qed.

Lemma staged_log {A} lo hi (m : M A) s r s' :
  staged lo hi m → run m s = (r, s') →
  ∃ new, log s' = log s ++ new ∧ Forall (λ ev, lo ≤ phase ev.1 ≤ hi)%nat new.
Proof.
  intros Hm R. destruct (Hm s) as (new & D & F & _). unfold delta in D.
  rewrite R in D. eauto.
Qed.

Lemma handed_early evs : Forall (λ ev, (phase ev.1 ≤ 5)%nat) evs → handed evs = [].
Proof.
  unfold handed. induction 1 as [|[c o] evs Hc _ IH]; [done|].
  cbn. rewrite IH. by destruct c; cbn in *; try lia.
Qed.

Lemma cell9_value_nonempty L w f fs : cell9_value L w (f :: fs) ≠ Ok None.
Proof.
  cbn. destruct (outcome _); [|done]. by destruct (stack_value _ _ _ _).
Qed.

Lemma cell3_run L s s' :
  run (cell3 L) s = (Ok tt, s') →
  ∃ data feat sh b,
    ns s !! "draw_control" = Some (VDrawControl data) ∧ last data = Some feat ∧
    shape L (feat_geometry feat) = Ok sh ∧ shape_bounds L sh = Ok b ∧
    ns s' = <["bounds" := VBounds b]> (<["geometry" := VShape sh]> (ns s)) ∧
    log s' = log s ++ cell3_log (feat_geometry feat) sh b.
Proof.
  unfold cell3, index_last. exec.
  destruct (ns s !! "draw_control") as [[]|] eqn:Hd; exec; try done.
  destruct (last data) as [feat|] eqn:Hl; exec; [|done].
  destruct (shape L (feat_geometry feat)) as [sh|e] eqn:Hs; exec; [|done].
  destruct (shape_bounds L sh) as [b|e] eqn:Hb; exec; [|done].
  intros [= <-]. exists data, feat, sh, b. cbn.
  repeat split; try done. by rewrite <- !app_assoc.
Qed.

(** A run of the whole notebook that completes: what each cell found, and
    the log, which is the cells' logs one after the other. *)
Lemma notebook_run L drawn s' :
  run (notebook L) (initial drawn) = (Ok tt, s') →
  ∃ feat sh b cat colls f0 rest src w dc lo hi,
    last drawn = Some feat ∧
    shape L (feat_geometry feat) = Ok sh ∧ shape_bounds L sh = Ok b ∧
    Client_open L catalog_url = Ok cat ∧ cat_collections cat = Ok colls ∧
    listed target_collection target_item colls = f0 :: rest ∧
    rasterio_open L f0 = Ok src ∧
    from_bounds L (minx b) (miny b) (maxx b) (maxy b) (src_transform src) = Ok w ∧
    cell9_value L (VWindow w) (f0 :: rest) = Ok (Some dc) ∧
    ns s' !! "bounds" = Some (VBounds b) ∧
    ns s' !! "file_store" = Some (VStrs (f0 :: rest)) ∧
    ns s' !! "window" = Some (VWindow w) ∧
    ns s' !! "datacube" = Some (VCube dc) ∧
    log s' = cell3_log (feat_geometry feat) sh b ++ cell4_log colls ++
             cell6_log f0 b src ++ cell9_log L (VWindow w) (f0 :: rest) ++
             viewer_log lo hi dc.
Proof.
  unfold notebook. intros R.
  apply run_seq_ok in R as ([] & s3 & R3 & R).
  apply run_seq_ok in R as ([] & s4 & R4 & R).
  apply run_seq_ok in R as ([] & s5 & R5 & R). apply cell5_run in R5 as ->.
  apply run_seq_ok in R as ([] & s6 & R6 & R).
  apply run_seq_ok in R as ([] & s7 & R7 & R). apply cell7_run in R7 as ->.
  apply run_seq_ok in R as ([] & s9 & R9 & R).
  apply run_seq_ok in R as ([] & s10 & R10 & R11).
  destruct (cell3_run _ _ _ R3) as (data & feat & sh & b & Hd & Hl & Hs & Hb & N3 & L3).
  assert (data = drawn) as -> by (cbn in Hd; rewrite lookup_singleton_eq in Hd; congruence).
  destruct (list_assets_run _ _ _ _ _ _ R4) as (cat & colls & Hc & Hcs & Hfs4 & L4).
  destruct (cell6_run _ _ _ R6)
    as (f0 & rest & b' & src & w & st & Hfs & Hb4 & Hsrc & Hw & _ & N6 & L6).
  assert (b' = b) as ->.
  { pose proof (cell4_preserves L s3 "bounds"
                  ltac:(unfold cell4_names; not_in_names)) as K.
    rewrite R4 in K. cbn [snd] in K.
    rewrite K, N3, lookup_insert_eq in Hb4. congruence. }
  assert (listed target_collection target_item colls = f0 :: rest) as Hlisted by congruence.
  assert (Hfs6 : ns s6 !! "file_store" = Some (VStrs (f0 :: rest)))
    by (rewrite N6; by rewrite !lookup_insert_ne).
  assert (Hw6 : ns s6 !! "window" = Some (VWindow w))
    by (rewrite N6; rewrite lookup_insert_ne by done; by rewrite lookup_insert_eq).
  destruct (cell9_run L s6 _ _ Hfs6 Hw6) as [L9 V9].
  rewrite R9 in L9, V9. cbn [fst snd] in L9, V9.
  destruct (cell9_value L (VWindow w) (f0 :: rest)) as [[dc|]|e] eqn:E9;
    [|by apply cell9_value_nonempty in E9|done].
  destruct V9 as [_ Hdc9].
  destruct (cell10_run _ _ _ R10) as (lo & hi & N10 & L10).
  destruct (cell11_run _ _ _ R11) as (c & Hdc10 & Hdc' & L11).
  assert (c = dc) as ->.
  { rewrite N10, lookup_insert_ne in Hdc10 by done. congruence. }
  exists feat, sh, b, cat, colls, f0, rest, src, w, dc, lo, hi.
  assert (Hkeep : ∀ k, k ∉ cell9_names → k ∉ viewer_names →
                       ns s' !! k = ns s6 !! k).
  { intros k H9 H11.
    pose proof (cell9_preserves L s6 k H9) as K9.
    pose proof (cell11_preserves L s10 k H11) as K11.
    rewrite R9 in K9. rewrite R11 in K11. cbn [snd] in K9, K11.
    rewrite K11, N10, lookup_insert_ne, K9; [done|].
    intros <-. apply H11. unfold viewer_names. by left. }
  assert (Hb' : ns s' !! "bounds" = Some (VBounds b)).
  { rewrite Hkeep, N6, !lookup_insert_ne by
      first [done | unfold cell9_names; not_in_names | unfold viewer_names; not_in_names].
    exact Hb4. }
  assert (Hfs' : ns s' !! "file_store" = Some (VStrs (f0 :: rest))).
  { rewrite Hkeep by
      first [unfold cell9_names; not_in_names | unfold viewer_names; not_in_names].
    exact Hfs6. }
  assert (Hw' : ns s' !! "window" = Some (VWindow w)).
  { rewrite Hkeep by
      first [unfold cell9_names; not_in_names | unfold viewer_names; not_in_names].
    exact Hw6. }
  repeat split; try done.
  rewrite L11, L10, L9, L6, L4, L3. cbn [initial log app].
  unfold viewer_log, cell6_log, cell4_log. by rewrite <- !app_assoc.
Qed.

(** ** Reading the logs of the cells *)

(** Case analysis on everything a statement branches on. *)
Ltac crunch :=
  cbn; repeat (case_match; cbn in *; simplify_eq; cbn in *; try done).

Lemma calls_from_delta {A} (m : M A) s new : delta m s new → calls_from m s = new.
Proof. unfold delta, calls_from. intros ->. by rewrite drop_app_length. Qed.

Lemma read_raster_emits L f v : emits (λ c, step_of c = 5%nat) (read_raster L f v).
Proof. unfold_cells. structural. Qed.

Lemma read_raster_steps L f v :
  Forall (λ ev, step_of ev.1 = 5%nat) (calls (read_raster L f v)).
Proof.
  destruct (read_raster_emits L f v empty_state) as (new & D & F).
  unfold delta in D. cbn in D. unfold calls. by rewrite D.
Qed.

Lemma read_raster_opened L f v : opened (calls (read_raster L f v)) = [f].
Proof.
  unfold calls, read_raster, open_dataset, isel, expand_dims, attr_window, expect.
  crunch.
Qed.

Lemma read_raster_slices L f w d :
  outcome (read_raster L f (VWindow w)) = Ok d →
  ∃ xy, window_slices w = Ok xy ∧ isel_slices (calls (read_raster L f (VWindow w))) = [xy].
Proof.
  unfold outcome, calls, window_slices, read_raster, open_dataset, isel, expand_dims,
    attr_window, expect.
  crunch; intros _; eauto.
Qed.

Lemma read_raster_slices_any L f w :
  Forall (λ xy, window_slices w = Ok xy) (isel_slices (calls (read_raster L f (VWindow w)))).
Proof.
  unfold calls, window_slices, read_raster, open_dataset, isel, expand_dims, attr_window, expect.
  crunch; repeat constructor.
Qed.

Lemma projection_of_step {B} (g : Event → option B) (n : nat) evs :
  (∀ ev, step_of ev.1 = n → g ev = None) →
  Forall (λ ev, step_of ev.1 = n) evs → omap g evs = [].
Proof.
  intros Hg. induction 1 as [|ev evs Hev _ IH]; [done|]. cbn. by rewrite Hg, IH.
Qed.

Lemma read_raster_concats L f v : concats (calls (read_raster L f v)) = [].
Proof.
  apply (projection_of_step _ 5), read_raster_steps. by intros [[] ?].
Qed.

Lemma opened_app a b : opened (a ++ b) = opened a ++ opened b.
Proof. apply omap_app. Qed.
Lemma concats_app a b : concats (a ++ b) = concats a ++ concats b.
Proof. apply omap_app. Qed.
Lemma isel_slices_app a b : isel_slices (a ++ b) = isel_slices a ++ isel_slices b.
Proof. apply omap_app. Qed.

(** The stacking loop opens the files in list order, each at most once,
    and calls [concat] once for every file after the first. *)
Lemma stack_log_opened L w (fs : list string) : ∀ acc,
  opened (stack_log L w acc fs) `prefix_of` fs ∧
  (∀ c, stack_value L w acc fs = Ok c →
        opened (stack_log L w acc fs) = fs ∧
        length (concats (stack_log L w acc fs)) = length fs).
Proof.
  induction fs as [|f fs IH]; intros acc; cbn [stack_log stack_value]; [done|].
  rewrite opened_app, concats_app, read_raster_opened, read_raster_concats.
  destruct (outcome (read_raster L f w)) as [d|e]; cbn [app].
  - destruct (IH (concat_cubes acc d)) as [Hp Ho]. split.
    + by apply prefix_cons.
    + intros c Hc. destruct (Ho c Hc) as [Ho1 Ho2].
      change (opened (?e :: ?l)) with (opened l).
      change (concats ((CConcat ?a ?b, ?o) :: ?l)) with ((a, b) :: concats l).
      cbn [length]. by rewrite Ho1, Ho2.
  - split; [|done]. apply prefix_cons, prefix_nil.
Qed.

Lemma cell9_log_opened L w (fs : list string) :
  opened (cell9_log L w fs) `prefix_of` fs ∧
  (∀ c, cell9_value L w fs = Ok c →
        opened (cell9_log L w fs) = fs ∧
        length (concats (cell9_log L w fs)) = (length fs - 1)%nat).
Proof.
  destruct fs as [|f fs]; cbn [cell9_log cell9_value]; [done|].
  rewrite opened_app, concats_app, read_raster_opened, read_raster_concats.
  destruct (outcome (read_raster L f w)) as [d|e]; cbn [app].
  - destruct (stack_log_opened L w fs d) as [Hp Ho]. split.
    + by apply prefix_cons.
    + intros c Hc. destruct (stack_value L w d fs) as [c'|] eqn:E; [|done].
      destruct (Ho c' eq_refl) as [-> ->]. split; [done|cbn; lia].
  - split; [|done]. apply prefix_cons, prefix_nil.
Qed.

Lemma stack_log_slices L w (fs : list string) : ∀ acc,
  Forall (λ xy, window_slices w = Ok xy) (isel_slices (stack_log L (VWindow w) acc fs)) ∧
  (∀ c, stack_value L (VWindow w) acc fs = Ok c →
        length (isel_slices (stack_log L (VWindow w) acc fs)) = length fs).
Proof.
  induction fs as [|f fs IH]; intros acc; cbn [stack_log stack_value]; [done|].
  rewrite isel_slices_app.
  pose proof (read_raster_slices_any L f w) as Hany.
  destruct (outcome (read_raster L f (VWindow w))) as [d|e] eqn:E.
  - destruct (IH (concat_cubes acc d)) as [Hf Hl].
    destruct (read_raster_slices L f w d E) as (xy & Hxy & Hs).
    change (isel_slices ((CConcat ?a ?b, ?o) :: ?l)) with (isel_slices l). split.
    + apply Forall_app. by split.
    + intros c Hc. by rewrite length_app, (Hl c Hc), Hs.
  - split; [|done]. by rewrite app_nil_r.
Qed.

Lemma cell9_log_slices L w (fs : list string) :
  Forall (λ xy, window_slices w = Ok xy) (isel_slices (cell9_log L (VWindow w) fs)) ∧
  (∀ c, cell9_value L (VWindow w) fs = Ok c →
        length (isel_slices (cell9_log L (VWindow w) fs)) = length fs).
Proof.
  destruct fs as [|f fs]; cbn [cell9_log cell9_value]; [done|].
  rewrite isel_slices_app.
  pose proof (read_raster_slices_any L f w) as Hany.
  destruct (outcome (read_raster L f (VWindow w))) as [d|e] eqn:E.
  - destruct (stack_log_slices L w fs d) as [Hf Hl].
    destruct (read_raster_slices L f w d E) as (xy & Hxy & Hs). split.
    + apply Forall_app. by split.
    + intros c Hc. destruct (stack_value L (VWindow w) d fs) as [c'|] eqn:E'; [|done].
      by rewrite length_app, (Hl c' eq_refl), Hs.
  - split; [|done]. by rewrite app_nil_r.
Qed.

Lemma omap_none {B} (g : Event → option B) evs :
  Forall (λ ev, g ev = None) evs → omap g evs = [].
Proof. induction 1 as [|ev evs Hev _ IH]; [done|]. cbn. by rewrite Hev, IH. Qed.

Lemma listing_log_phase tc ti colls :
  Forall (λ ev, phase ev.1 = 3%nat) (listing_log tc ti colls).
Proof.
  unfold listing_log. induction colls as [|c colls IH]; [constructor|].
  rewrite bind_cons. apply Forall_app. split; [|exact IH].
  unfold collection_log. case_bool_decide; [|constructor].
  constructor; [done|]. generalize (items_of c). intros items.
  induction items as [|it items IHi]; [constructor|].
  rewrite bind_cons. apply Forall_app. split; [|exact IHi].
  unfold item_log. constructor; [done|].
  apply Forall_fmap, Forall_true. done.
Qed.

Lemma stack_log_phase L w (fs : list string) : ∀ acc,
  Forall (λ ev, phase ev.1 = 5%nat) (stack_log L w acc fs).
Proof.
  induction fs as [|f fs IH]; intros acc; cbn [stack_log]; [constructor|].
  apply Forall_app. split.
  - eapply Forall_impl; [apply read_raster_steps|]. intros [c o] Hc. cbn in *.
    unfold phase. by rewrite Hc.
  - destruct (outcome _); [|constructor]. constructor; [done|apply IH].
Qed.

Lemma cell9_log_phase L w (fs : list string) :
  Forall (λ ev, phase ev.1 = 5%nat) (cell9_log L w fs).
Proof.
  destruct fs as [|f fs]; cbn [cell9_log]; [constructor|].
  apply Forall_app. split.
  - eapply Forall_impl; [apply read_raster_steps|]. intros [c o] Hc. cbn in *.
    unfold phase. by rewrite Hc.
  - destruct (outcome _); [|constructor]. apply stack_log_phase.
Qed.

(** What the projections of the log are on the log of a completed run. *)
Lemma completed_log_projections L g sh b colls f0 src w fs lo hi dc :
  let evs := cell3_log g sh b ++ cell4_log colls ++ cell6_log f0 b src ++
             cell9_log L (VWindow w) fs ++ viewer_log lo hi dc in
  handed evs = [VCube dc] ∧
  windows_computed evs = [(minx b, miny b, maxx b, maxy b, src_transform src)] ∧
  rasterio_opened evs = [f0] ∧
  isel_slices evs = isel_slices (cell9_log L (VWindow w) fs) ∧
  opened evs = opened (cell9_log L (VWindow w) fs) ∧
  concats evs = concats (cell9_log L (VWindow w) fs).
Proof.
  intros evs. subst evs. unfold cell4_log.
  pose proof (listing_log_phase target_collection target_item colls) as H4.
  pose proof (cell9_log_phase L (VWindow w) fs) as H9.
  unfold handed, windows_computed, rasterio_opened, isel_slices, opened, concats.
  rewrite !omap_app.
  repeat split.
  all: rewrite (omap_none _ (listing_log _ _ _))
         by (eapply Forall_impl; [exact H4|]; by intros [[] ?]).
  all: try rewrite (omap_none _ (cell9_log _ _ _))
         by (eapply Forall_impl; [exact H9|]; by intros [[] ?]).
  all: cbn; by rewrite ?app_nil_r.
Qed.

(** ** What a read returns *)

Lemma read_raster_returns L f v c :
  outcome (read_raster L f v) = Ok c →
  ∃ (cols rows : nat) ts r,
    raster_shape L f = Ok (cols, rows) ∧ file_times L f = Ok ts ∧
    c = stamped r ts ∧
    ((truthy v = false ∧ r = whole f cols rows) ∨
     (∃ w x y, v = VWindow w ∧ window_slices w = Ok (x, y) ∧
               r = selected (whole f cols rows) x y)).
Proof.
  destruct (raster_shape L f) as [[cols rows]|e] eqn:Hs.
  - destruct (file_times L f) as [ts|e] eqn:Ht.
    + rewrite (read_raster_outcome L f v cols rows ts Hs Ht).
      destruct (truthy v) eqn:Hv.
      * destruct v; try done.
        destruct (window_slices w) as [[x y]|e] eqn:Hw; [|done].
        intros [= <-]. exists cols, rows, ts, (selected (whole f cols rows) x y).
        repeat split; try done. right. by exists w, x, y.
      * intros [= <-]. exists cols, rows, ts, (whole f cols rows).
        repeat split; try done. by left.
    + revert Ht. unfold file_times, outcome, read_raster, open_dataset, isel,
        expand_dims, attr_window, expect.
      rewrite Hs. crunch.
  - unfold outcome, read_raster, open_dataset, isel, expand_dims, attr_window, expect.
    rewrite Hs. crunch.
Qed.

Lemma fold_concat_cubes (ds : list Cube) : ∀ d,
  fold_left concat_cubes ds d = mjoin (d :: ds).
Proof.
  induction ds as [|d' ds IH]; intros d; cbn.
  - by rewrite app_nil_r.
  - rewrite IH. cbn. unfold concat_cubes. by rewrite app_assoc.
Qed.

Lemma read_raster_file_cube L f w x y c :
  window_slices w = Ok (x, y) →
  outcome (read_raster L f (VWindow w)) = Ok c → file_cube L x y f c.
Proof.
  intros Hw (cols & rows & ts & r & Hs & Ht & -> & Hr)%read_raster_returns.
  destruct Hr as [[? _] | (w' & x' & y' & [= <-] & Hw' & ->)]; [done|].
  rewrite Hw in Hw'. injection Hw' as <- <-. by exists cols, rows, ts.
Qed.

Lemma read_raster_window_finite L f w c :
  outcome (read_raster L f (VWindow w)) = Ok c → ∃ x y, window_slices w = Ok (x, y).
Proof.
  intros (cols & rows & ts & r & Hs & Ht & -> & Hr)%read_raster_returns.
  destruct Hr as [[? _] | (w' & x' & y' & [= <-] & Hw' & ->)]; [done|]. eauto.
Qed.

(** ** The time axis of the datacube *)

Lemma cube_time_app (a b : Cube) : cube_time (concat_cubes a b) = cube_time a ++ cube_time b.
Proof. apply fmap_app. Qed.

Lemma cube_time_fold (ds : list Cube) : ∀ d,
  cube_time (fold_left concat_cubes ds d) = mjoin (cube_time <$> (d :: ds)).
Proof.
  induction ds as [|d' ds IH]; intros d; cbn.
  - by rewrite app_nil_r.
  - rewrite IH. cbn. by rewrite cube_time_app, app_assoc.
Qed.

Lemma cell9_value_times L w (fs : list string) dc :
  cell9_value L w fs = Ok (Some dc) →
  ∃ tss, Forall2 (λ f ts, file_times L f = Ok ts) fs tss ∧ cube_time dc = mjoin tss.
Proof.
  rewrite cell9_value_fold.
  destruct (comprehension _ fs) as [[|d ds]|e] eqn:E; try done.
  intros [= <-]. exists (cube_time <$> (d :: ds)). split; [|apply cube_time_fold].
  apply comprehension_Forall2 in E. apply Forall2_fmap_r.
  eapply Forall2_impl; [exact E|]. cbn. intros f c. apply read_raster_times.
Qed.

Lemma join_singletons {A} (tss : list (list A)) :
  Forall (λ ts, length ts = 1%nat) tss → (λ t, [t]) <$> mjoin tss = tss.
Proof.
  induction 1 as [|ts tss Hts _ IH]; [done|].
  destruct ts as [|t [|??]]; try done. cbn. by f_equal.
Qed.

(** The time coordinates of the datacube of a completed run, whatever
    [date_range] answers: in [file_store] order, the timestamps it gives
    for the 6th and 7th underscore-separated fields of each URL. *)
Lemma completed_time_coordinates (L : Lib) (drawn : list Feature) (s' : St) :
  run (notebook L) (initial drawn) = (Ok tt, s') →
  ∃ fs dc tss,
    ns s' !! "file_store" = Some (VStrs fs) ∧ fs ≠ [] ∧
    handed (log s') = [VCube dc] ∧
    Forall2 (λ f ts, file_times L f = Ok ts) fs tss ∧
    cube_time dc = mjoin tss.
Proof.
  intros R.
  destruct (notebook_run _ _ _ R)
    as (feat & sh & b & cat & colls & f0 & rest & src & w & dc & lo & hi &
        _ & _ & _ & _ & _ & _ & _ & _ & Hv & _ & Hfs & _ & _ & Hlog).
  destruct (cell9_value_times _ _ _ _ Hv) as (tss & Hts & Htime).
  exists (f0 :: rest), dc, tss. split; [done|]. split; [done|].
  split; [rewrite Hlog; apply completed_log_projections|]. done.
Qed.

(** A read of a file with one timestamp is one layer, from that file. *)
Lemma read_raster_one_layer L f v c :
  (∀ ts, file_times L f = Ok ts → length ts = 1%nat) →
  outcome (read_raster L f v) = Ok c →
  ∃ t r, c = [(t, r)] ∧ file_times L f = Ok [t] ∧ r_source r = f.
Proof.
  intros Hone (cols & rows & ts & r & Hs & Ht & -> & Hr)%read_raster_returns.
  pose proof (Hone ts Ht) as Hlen.
  destruct ts as [|t [|??]]; try done.
  exists t, r. split; [done|]. split; [done|].
  by destruct Hr as [[_ ->] | (w & x & y & _ & _ & ->)].
Qed.

Lemma Forall2_with {A B} (P : A → B → Prop) (Q : A → Prop) l k :
  Forall2 P l k → Forall Q l → Forall2 (λ a b, P a b ∧ Q a) l k.
Proof.
  induction 1 as [|a b l k Hab _ IH]; [constructor|].
  intros [Ha Hl]%Forall_cons. constructor; [done|by apply IH].
Qed.

Lemma join_one_each {A B} (P : A → B → Prop) (l : list A) (ls : list (list B)) :
  Forall2 (λ a xs, ∃ x, xs = [x] ∧ P a x) l ls → Forall2 P l (mjoin ls).
Proof.
  induction 1 as [|a xs l ls (x & -> & Hx) _ IH]; [constructor|].
  cbn. by constructor.
Qed.

(** C1. In every run of the notebook that completes, with [file_store]
    holding n URLs of files that cover one year each, so that [date_range]
    (with [freq='Y']) gives one timestamp for the 6th and 7th
    underscore-separated fields of each URL: the datacube handed to the
    viewer is a stack with a time dimension of length exactly n, one
    coordinate and one layer per file, in [file_store] order; the
    coordinate of a file is that one timestamp, and its layer is read from
    that file. *)
Theorem datacube_time_axis
    (L : Lib) (drawn : list Feature) (s' : St) (fs : list string) :
  run (notebook L) (initial drawn) = (Ok tt, s') →
  ns s' !! "file_store" = Some (VStrs fs) →
  Forall (λ f, ∀ ts, file_times L f = Ok ts → length ts = 1%nat) fs →
  ∃ dc, handed (log s') = [VCube dc] ∧
        length (cube_time dc) = length fs ∧
        Forall2 (λ f t, file_times L f = Ok [t]) fs (cube_time dc) ∧
        Forall2 (λ f r, r_source r = f) fs (cube_layers dc).
Proof.
  intros R Hfs Hone.
  destruct (notebook_run _ _ _ R)
    as (feat & sh & b & cat & colls & f0 & rest & src & w & dc & lo & hi &
        _ & _ & _ & _ & _ & _ & _ & _ & Hv & _ & Hfs' & _ & _ & Hlog).
  assert (fs = f0 :: rest) as -> by congruence.
  exists dc. split; [rewrite Hlog; apply completed_log_projections|].
  rewrite cell9_value_fold in Hv.
  destruct (comprehension _ (f0 :: rest)) as [[|d ds]|e] eqn:E; try done.
  injection Hv as <-. rewrite fold_concat_cubes.
  apply comprehension_Forall2 in E.
  assert (Hall : Forall2 (λ f tr, file_times L f = Ok [tr.1] ∧ r_source tr.2 = f)
                   (f0 :: rest) (mjoin (d :: ds))).
  { apply join_one_each.
    eapply Forall2_impl; [apply (Forall2_with _ _ _ _ E Hone)|].
    cbn. intros f c [Hc Hf]. destruct (read_raster_one_layer L f _ c Hf Hc)
      as (t & r & -> & Ht & Hr). by exists (t, r). }
  split; [|split].
  - unfold cube_time. rewrite length_fmap. symmetry. by eapply Forall2_length.
  - unfold cube_time. apply Forall2_fmap_r.
    eapply Forall2_impl; [exact Hall|]. by intros f tr [? _].
  - unfold cube_layers. apply Forall2_fmap_r.
    eapply Forall2_impl; [exact Hall|]. by intros f tr [_ ?].
Qed.

Lemma datacube_time_axis_witness :
  ∃ dc, handed (log (run (notebook demo_lib) (initial [south_america])).2) = [VCube dc] ∧
        length (cube_time dc) = length demo_files ∧
        Forall2 (λ f t, file_times demo_lib f = Ok [t]) demo_files (cube_time dc) ∧
        Forall2 (λ f r, r_source r = f) demo_files (cube_layers dc).
Proof.
  refine (datacube_time_axis demo_lib [south_america]
            (run (notebook demo_lib) (initial [south_america])).2 demo_files _ _ _).
  - vm_compute. reflexivity.
  - vm_compute. reflexivity.
  - repeat constructor; intros ts H; vm_compute in H; by injection H as <-.
Defined.

(** ** The pixel window *)

Lemma all_equal {A} (v : A) (l : list A) :
  Forall (λ a, a = v) l → l = replicate (length l) v.
Proof. induction 1 as [|a l -> _ IH]; [done|]. cbn. by f_equal. Qed.

(** The stacking loop computes no window and opens nothing with rasterio. *)
Lemma cell9_log_other L w (fs : list string) :
  windows_computed (cell9_log L w fs) = [] ∧ rasterio_opened (cell9_log L w fs) = [].
Proof.
  pose proof (cell9_log_phase L w fs) as H9.
  split; apply omap_none; (eapply Forall_impl; [exact H9|]); by intros [[] ?].
Qed.

(** What a completed stacking loop leaves in [datacube]: every file cut
    to the slices of the window. *)
Lemma cell9_value_cubes L w (fs : list string) dc :
  fs ≠ [] →
  cell9_value L (VWindow w) fs = Ok (Some dc) →
  ∃ x y cubes, window_slices w = Ok (x, y) ∧
               Forall2 (file_cube L x y) fs cubes ∧ dc = mjoin cubes.
Proof.
  intros Hne. rewrite cell9_value_fold.
  destruct (comprehension _ fs) as [[|d ds]|e] eqn:E; try done.
  intros [= <-]. apply comprehension_Forall2 in E.
  assert (∃ x y, window_slices w = Ok (x, y)) as (x & y & Hxy).
  { inversion E; subst. by eapply read_raster_window_finite. }
  exists x, y, (d :: ds). split; [done|]. split; [|apply fold_concat_cubes].
  eapply Forall2_impl; [exact E|]. cbn. intros f c. by apply read_raster_file_cube.
Qed.

(** C2. The pixel window is one value, computed once and used for every
    read.
    - Cell [6], run with files listed and bounds bound, when it completes:
      [window] is what [from_bounds] answers for the bounds, passed as
      (minx, miny, maxx, maxy), and the transform of the raster at
      [file_store[0]]; the cell calls [from_bounds] once and opens that
      first file only.
    - Cell [9], run with a window [w]: it computes no window and opens
      nothing with rasterio, leaves [window] as it is, and every [isel] it
      calls has the slices of [w]; when it completes on [n >= 1] files it
      has called [isel] [n] times with those slices, and [datacube] is,
      file after file, the raster of the file cut to them.
    - A run of the whole notebook that completes: the bounds are those of
      the last drawn region, [from_bounds] is called once in the whole run,
      with these bounds and the transform of the first listed file,
      rasterio opens that file and no other, and the datacube handed to
      the viewer is every listed file cut to the slices of that one
      window. *)
Theorem window_from_first_raster (L : Lib) :
  (∀ s s' f0 rest b,
     ns s !! "file_store" = Some (VStrs (f0 :: rest)) →
     ns s !! "bounds" = Some (VBounds b) →
     run (cell6 L) s = (Ok tt, s') →
     ∃ src w,
       rasterio_open L f0 = Ok src ∧
       from_bounds L (minx b) (miny b) (maxx b) (maxy b) (src_transform src) = Ok w ∧
       ns s' !! "window" = Some (VWindow w) ∧
       windows_computed (calls_from (cell6 L) s) =
         [(minx b, miny b, maxx b, maxy b, src_transform src)] ∧
       rasterio_opened (calls_from (cell6 L) s) = [f0]) ∧
  (∀ s fs w,
     ns s !! "file_store" = Some (VStrs fs) →
     ns s !! "window" = Some (VWindow w) →
     let out := run (cell9 L) s in
     let new := calls_from (cell9 L) s in
     windows_computed new = [] ∧ rasterio_opened new = [] ∧
     ns out.2 !! "window" = Some (VWindow w) ∧
     Forall (λ xy, window_slices w = Ok xy) (isel_slices new) ∧
     (fs ≠ [] → out.1 = Ok tt →
        ∃ x y cubes,
          window_slices w = Ok (x, y) ∧
          isel_slices new = replicate (length fs) (x, y) ∧
          Forall2 (file_cube L x y) fs cubes ∧
          ns out.2 !! "datacube" = Some (VCube (mjoin cubes)))) ∧
  (∀ drawn s',
     run (notebook L) (initial drawn) = (Ok tt, s') →
     ∃ feat sh b f0 rest src w x y cubes,
       last drawn = Some feat ∧
       shape L (feat_geometry feat) = Ok sh ∧ shape_bounds L sh = Ok b ∧
       ns s' !! "file_store" = Some (VStrs (f0 :: rest)) ∧
       rasterio_open L f0 = Ok src ∧
       from_bounds L (minx b) (miny b) (maxx b) (maxy b) (src_transform src) = Ok w ∧
       ns s' !! "window" = Some (VWindow w) ∧
       windows_computed (log s') =
         [(minx b, miny b, maxx b, maxy b, src_transform src)] ∧
       rasterio_opened (log s') = [f0] ∧
       opened (log s') = f0 :: rest ∧
       window_slices w = Ok (x, y) ∧
       isel_slices (log s') = replicate (length (f0 :: rest)) (x, y) ∧
       Forall2 (file_cube L x y) (f0 :: rest) cubes ∧
       handed (log s') = [VCube (mjoin cubes)]).
Proof.
  split; [|split].
  - intros s s' f0 rest b Hfs Hb R.
    destruct (cell6_run _ _ _ R)
      as (f0' & rest' & b' & src & w & st & Hfs' & Hb' & Hsrc & Hw & _ & N6 & L6).
    assert (f0' = f0) as -> by congruence.
    assert (b' = b) as -> by congruence.
    exists src, w. split; [done|]. split; [done|].
    split; [rewrite N6; rewrite lookup_insert_ne by done; by rewrite lookup_insert_eq|].
    assert (Hd : delta (cell6 L) s (cell6_log f0 b src))
      by (unfold delta; by rewrite R).
    by rewrite (calls_from_delta _ _ _ Hd).
  - intros s fs w Hfs Hw out new. subst out new.
    destruct (cell9_run L s fs (VWindow w) Hfs Hw) as [Hl Hv].
    rewrite (calls_from_delta _ _ _ Hl).
    destruct (cell9_log_other L (VWindow w) fs) as [Hwc Hro].
    destruct (cell9_log_slices L w fs) as [Hs Hn].
    split; [done|]. split; [done|]. split; [|split; [done|]].
    + rewrite <- Hw. apply cell9_preserves. unfold cell9_names. not_in_names.
    + intros Hne Hok.
      destruct (cell9_value L (VWindow w) fs) as [[dc|]|e] eqn:E.
      * destruct (cell9_value_cubes L w fs dc Hne E) as (x & y & cubes & Hxy & Hall & ->).
        exists x, y, cubes. split; [done|]. split; [|split; [done|apply Hv]].
        rewrite <- (Hn _ eq_refl). apply all_equal.
        eapply Forall_impl; [exact Hs|]. cbn. intros xy Hxy'. congruence.
      * destruct fs; [done|]. by apply cell9_value_nonempty in E.
      * rewrite Hok in Hv. discriminate Hv.
  - intros drawn s' R.
    destruct (notebook_run _ _ _ R)
      as (feat & sh & b & cat & colls & f0 & rest & src & w & dc & lo & hi &
          Hlast & Hsh & Hb & _ & _ & _ & Hsrc & Hw & Hv & _ & Hfs & Hwin & _ & Hlog).
    destruct (cell9_value_cubes L w (f0 :: rest) dc ltac:(done) Hv)
      as (x & y & cubes & Hxy & Hall & ->).
    exists feat, sh, b, f0, rest, src, w, x, y, cubes. rewrite Hlog.
    destruct (completed_log_projections L (feat_geometry feat) sh b colls f0 src w
                (f0 :: rest) lo hi (mjoin cubes)) as (Hh & Hwc & Hro & His & Hop & _).
    rewrite Hwc, Hro, His, Hop, Hh.
    destruct (cell9_log_opened L (VWindow w) (f0 :: rest)) as [_ Ho].
    destruct (Ho _ Hv) as [Ho1 _].
    destruct (cell9_log_slices L w (f0 :: rest)) as [Hs Hn].
    repeat split; try done.
    rewrite <- (Hn _ Hv). apply all_equal.
    eapply Forall_impl; [exact Hs|]. cbn. intros xy Hxy'. congruence.
Qed.

Lemma window_from_first_raster_witness :
  let s' := (run (notebook demo_lib) (initial [elsewhere; south_america])).2 in
  ns s' !! "window" = Some (VWindow demo_window) ∧
  windows_computed (log s') = [(-100.5, -57.25, -31.75, 18.75, demo_transform)%float] ∧
  rasterio_opened (log s') = [url_2000] ∧
  isel_slices (log s') = replicate 3 ((7, 14), (7, 14)) ∧
  handed (log s') = [VCube demo_cube].
Proof.
  destruct (proj2 (proj2 (window_from_first_raster demo_lib))
              [elsewhere; south_america]
              (run (notebook demo_lib) (initial [elsewhere; south_america])).2)
    as (feat & sh & b & f0 & rest & src & w & x & y & cubes &
        _ & _ & _ & _ & _ & _ & Hw & Hwc & Hro & _ & _ & His & _ & Hh).
  - vm_compute. reflexivity.
  - cbn zeta. split; [|split; [|split; [|split]]].
    + rewrite Hw. vm_compute in Hw. by injection Hw as <-.
    + vm_compute. reflexivity.
    + rewrite Hro. vm_compute in Hro. by injection Hro as <-.
    + vm_compute. reflexivity.
    + vm_compute. reflexivity.
Defined.

(** ** Loops, branches and the flag *)















(** ** The order of the steps *)

(** C6 (amended). In every run of the notebook, complete or not, the
    library calls come in the order bounds of the drawn region, catalog
    query, listing of the asset URLs, pixel window, stacking, viewer, where
    stacking reads the assets one by one and concatenates each read after
    the first onto the datacube before the next asset is read. When the
    run completes, its log is the calls of cell [3], of cell [4], of cell
    [6], of the stacking loop over the listed URLs with the window just
    computed, and of the viewer cells, in this order and nothing else; the
    one dataset handed to the viewer by [add_dataset] is the datacube the
    stacking loop ended with. *)
Theorem pipeline_order (L : Lib) (drawn : list Feature) :
  in_order phase (log (run (notebook L) (initial drawn)).2) ∧
  ∀ s', run (notebook L) (initial drawn) = (Ok tt, s') →
    ∃ feat sh b cat colls f0 rest src w dc lo hi,
      last drawn = Some feat ∧
      shape L (feat_geometry feat) = Ok sh ∧ shape_bounds L sh = Ok b ∧
      Client_open L catalog_url = Ok cat ∧ cat_collections cat = Ok colls ∧
      listed target_collection target_item colls = f0 :: rest ∧
      rasterio_open L f0 = Ok src ∧
      from_bounds L (minx b) (miny b) (maxx b) (maxy b) (src_transform src) = Ok w ∧
      cell9_value L (VWindow w) (f0 :: rest) = Ok (Some dc) ∧
      log s' = cell3_log (feat_geometry feat) sh b ++ cell4_log colls ++
               cell6_log f0 b src ++
               cell9_log L (VWindow w) (f0 :: rest) ++ viewer_log lo hi dc ∧
      handed (log s') = [VCube dc].
Proof.
  split.
  - destruct (notebook_staged L (initial drawn)) as (new & D & _ & S).
    unfold delta in D. change (log (initial drawn)) with (@nil Event) in D.
    by rewrite D.
  - intros s' R.
    destruct (notebook_run _ _ _ R)
      as (feat & sh & b & cat & colls & f0 & rest & src & w & dc & lo & hi &
          Hl & Hs & Hb & Hc & Hcs & Hfs & Hsrc & Hw & Hv & _ & _ & _ & _ & Hlog).
    exists feat, sh, b, cat, colls, f0, rest, src, w, dc, lo, hi.
    repeat split; try done.
    rewrite Hlog. apply completed_log_projections.
Qed.

Lemma pipeline_order_witness :
  handed (log (run (notebook demo_lib) (initial [south_america])).2) = [VCube demo_cube].
Proof.
  destruct (proj2 (pipeline_order demo_lib [south_america])
              (run (notebook demo_lib) (initial [south_america])).2)
    as (feat & sh & b & cat & colls & f0 & rest & src & w & dc & lo & hi &
        _ & _ & _ & _ & _ & _ & _ & _ & _ & _ & Hh).
  - vm_compute. reflexivity.
  - rewrite Hh. vm_compute in Hh. by injection Hh as <-.
Defined.

(** C6 as stated fails. Numbering the steps as the sentence lists them,
    with three assets the third read (step 5) comes after the first
    concatenation (step 6), and the concatenation is called twice; with a
    single asset no concatenation is called at all and the one read is
    handed to the viewer as it is. *)
Lemma third_read_follows_first_concat :
  (λ ev, step_of ev.1) <$> log (run (notebook demo_lib) (initial [south_america])).2 =
    [1; 1; 1; 2; 2; 3; 3; 3; 3; 3; 3; 3; 4; 4; 4; 4;
     5; 5; 5; 5; 5; 5; 5; 5; 6; 5; 5; 5; 5; 6; 7; 7; 7]%nat ∧
  ¬ in_order step_of (log (run (notebook demo_lib) (initial [south_america])).2) ∧
  (run (notebook two_year_lib) (initial [south_america])).1 = Ok tt ∧
  concats (log (run (notebook two_year_lib) (initial [south_america])).2) = [].
Proof.
  split; [vm_compute; reflexivity|]. split; [|vm_compute; done].
  unfold in_order. apply (proj1 (bool_decide_eq_false _)). vm_compute. reflexivity.
Qed.

(** * Further properties of the cells *)

(** ** The fields of a URL *)

Lemma split_nonempty sep s : split sep s ≠ [].
Proof. destruct s as [|c s]; cbn; [done|]. destruct (Ascii.eqb c sep); [done|]. by destruct (split sep s). Qed.

Lemma split_length sep s : length (split sep s) = S (count_char sep s).
Proof.
  induction s as [|c s IH]; [done|]. cbn.
  destruct (Ascii.eqb c sep); cbn; [by rewrite IH|].
  pose proof (split_nonempty sep s). destruct (split sep s); [done|]. exact IH.
Qed.

Lemma join_push sep c w ws : join sep (String c w :: ws) = String c (join sep (w :: ws)).
Proof. by destruct ws. Qed.

Lemma split_clean sep s : Forall (λ w, count_char sep w = 0%nat) (split sep s).
Proof.
  induction s as [|c s IH]; [by repeat constructor|]. cbn [split].
  destruct (Ascii.eqb c sep) eqn:E; [by constructor|].
  destruct (split sep s) as [|w ws]; [constructor; [cbn; by rewrite E|done]|].
  inversion_clear IH. constructor; [cbn; by rewrite E|done].
Qed.

Lemma split_join sep s : join sep (split sep s) = s.
Proof.
  induction s as [|c s IH]; [done|]. cbn [split].
  pose proof (split_nonempty sep s) as Hne.
  destruct (Ascii.eqb c sep) eqn:E.
  - apply Ascii.eqb_eq in E as ->.
    destruct (split sep s) as [|w ws]; [done|].
    change (join sep ("" :: w :: ws)) with (String sep (join sep (w :: ws))).
    by rewrite IH.
  - destruct (split sep s) as [|w ws]; [done|].
    by rewrite join_push, IH.
Qed.

Lemma index_Ok {A} (l : list A) i : (i < length l)%nat → ∃ x, index l i = Ok x.
Proof.
  intros H. unfold index. destruct (lookup_lt_is_Some_2 l i H) as [x ->]. eauto.
Qed.





(** X2. The fields [read_raster] splits a URL into: there is one more of
    them than the URL has underscores, none contains an underscore, and
    joined again with underscores they give the URL back. So the URL has a
    6th and a 7th field exactly when it has at least six underscores. *)
Theorem url_fields (file_url : string) :
  length (split "_" file_url) = S (count_char "_" file_url) ∧
  Forall (λ w, count_char "_" w = 0%nat) (split "_" file_url) ∧
  join "_" (split "_" file_url) = file_url ∧
  ((∃ start stop, index (split "_" file_url) 5 = Ok start ∧
                  index (split "_" file_url) 6 = Ok stop)
   ↔ (6 ≤ count_char "_" file_url)%nat).
Proof.
  pose proof (split_length "_" file_url) as Hlen.
  split; [done|]. split; [apply split_clean|]. split; [apply split_join|].
  split.
  - intros (start & stop & _ & H6). unfold index in H6.
    destruct (split "_" file_url !! 6%nat) eqn:E; [|done].
    apply lookup_lt_Some in E. lia.
  - intros H.
    destruct (index_Ok (split "_" file_url) 5 ltac:(lia)) as [start Hs].
    destruct (index_Ok (split "_" file_url) 6 ltac:(lia)) as [stop Ht].
    eauto.
Qed.

(** ** [read_raster]: when it returns, and what *)

Lemma py_int_finite x : (∃ z, py_int x = Ok z) ↔ finite x = true.
Proof.
  unfold py_int, finite. destruct (Prim2SF x); split; try done; eauto.
  - by intros [z ?].
  - by intros [z ?].
Qed.

Lemma window_slices_finite w :
  (∃ xy, window_slices w = Ok xy) ↔
  finite (col_off w) = true ∧ finite (col_off w + width w)%float = true ∧
  finite (row_off w) = true ∧ finite (row_off w + height w)%float = true.
Proof.
  rewrite <- !py_int_finite. unfold window_slices. split.
  - intros [xy H].
    destruct (py_int (col_off w)); [|done].
    destruct (py_int (col_off w + width w)%float); [|done].
    destruct (py_int (row_off w)); [|done].
    destruct (py_int (row_off w + height w)%float); [|done]. eauto 10.
  - intros ([? ->] & [? ->] & [? ->] & [? ->]). eauto.
Qed.

(** X3. [read_raster] returns exactly when the file opens, [date_range]
    answers for the 6th and 7th fields of the URL, and the window is
    either false in a condition or a window whose four slice bounds
    [col_off], [col_off + width], [row_off] and [row_off + height] are
    finite floats, so that [int] accepts them; what it returns is then the
    opened raster, cut to the window's slices if there is a window, with
    one layer per timestamp. A true value that is no window never gives a
    result. Finite offsets and sizes are not enough: the sum of two finite
    floats can be infinite, and [read_raster] then raises
    [OverflowError]. *)
Theorem read_raster_returns_iff (L : Lib) (file_url : string) (v : pyval) (c : Cube) :
  (outcome (read_raster L file_url v) = Ok c ↔
   ∃ (cols rows : nat) ts r,
     raster_shape L file_url = Ok (cols, rows) ∧ file_times L file_url = Ok ts ∧
     c = stamped r ts ∧
     ((truthy v = false ∧ r = whole file_url cols rows) ∨
      (∃ w x y, v = VWindow w ∧ window_slices w = Ok (x, y) ∧
                r = selected (whole file_url cols rows) x y))) ∧
  (∀ w, (∃ xy, window_slices w = Ok xy) ↔
        finite (col_off w) = true ∧ finite (col_off w + width w)%float = true ∧
        finite (row_off w) = true ∧ finite (row_off w + height w)%float = true) ∧
  (finite (col_off big_window) = true ∧ finite (row_off big_window) = true ∧
   finite (width big_window) = true ∧ finite (height big_window) = true ∧
   ∀ cols rows, raster_shape L file_url = Ok (cols, rows) →
     outcome (read_raster L file_url (VWindow big_window)) = Raise OverflowError).
Proof.
  split; [|split; [apply window_slices_finite|]].
  - split; [apply read_raster_returns|].
    intros (cols & rows & ts & r & Hs & Ht & -> & Hr).
    rewrite (read_raster_outcome L file_url v cols rows ts Hs Ht).
    destruct Hr as [[-> ->] | (w & x & y & -> & Hw & ->)]; [done|].
    cbn. by rewrite Hw.
  - repeat split; try (vm_compute; reflexivity).
    intros cols rows Hs.
    unfold outcome, read_raster, open_dataset, attr_window, expect.
    rewrite Hs. vm_compute. reflexivity.
Qed.

(** X4. Whatever the slice bounds, the positions [isel] retains are
    consecutive positions of the raster: no position outside it, so never
    more columns than the raster has. A slice whose start is at or beyond
    the width of the raster ([start >= cols]) retains nothing, and so does
    one whose bounds are both non-negative with the stop at or before the
    start. A negative start [-k] counts from the far edge: with
    [k <= cols] the selection begins at column [cols - k], with [k > cols]
    at column [0]; so a window that begins [k] columns west of the grid
    does not select the [k] columns nearest its own start. *)
Theorem isel_clips_to_raster (file_url : string) (cols rows : nat) (x y : Z * Z) :
  let r := selected (whole file_url cols rows) x y in
  (∃ lo n, r_x r = seqZ lo n ∧ 0 ≤ lo ∧ lo + Z.max n 0 ≤ Z.of_nat cols) ∧
  (∃ lo n, r_y r = seqZ lo n ∧ 0 ≤ lo ∧ lo + Z.max n 0 ≤ Z.of_nat rows) ∧
  Forall (λ i, 0 ≤ i < Z.of_nat cols) (r_x r) ∧
  Forall (λ j, 0 ≤ j < Z.of_nat rows) (r_y r) ∧
  (length (r_x r) ≤ cols)%nat ∧ (length (r_y r) ≤ rows)%nat ∧
  (Z.of_nat cols ≤ x.1 → r_x r = []) ∧
  (0 ≤ x.2 ≤ x.1 → r_x r = []) ∧
  (∀ k, 0 < k ≤ Z.of_nat cols → x.1 = - k → 0 ≤ x.2 ≤ Z.of_nat cols →
        r_x r = seqZ (Z.of_nat cols - k) (x.2 - (Z.of_nat cols - k))) ∧
  (∀ k, Z.of_nat cols < k → x.1 = - k → 0 ≤ x.2 ≤ Z.of_nat cols →
        r_x r = seqZ 0 x.2).
Proof.
  intros r. subst r. destruct x as [x0 x1], y as [y0 y1]. cbn [selected whole r_x r_y fst snd].
  rewrite !py_slice_seqZ.
  pose proof (slice_bound_range (Z.of_nat cols) x0 ltac:(lia)) as Hx0.
  pose proof (slice_bound_range (Z.of_nat cols) x1 ltac:(lia)) as Hx1.
  pose proof (slice_bound_range (Z.of_nat rows) y0 ltac:(lia)) as Hy0.
  pose proof (slice_bound_range (Z.of_nat rows) y1 ltac:(lia)) as Hy1.
  repeat split.
  - eexists _, _. split; [done|]. lia.
  - eexists _, _. split; [done|]. lia.
  - apply Forall_forall. intros i Hi%elem_of_seqZ. lia.
  - apply Forall_forall. intros i Hi%elem_of_seqZ. lia.
  - rewrite length_seqZ. lia.
  - rewrite length_seqZ. lia.
  - intros H. apply seqZ_nil. unfold slice_bound. repeat case_decide; lia.
  - intros H. apply seqZ_nil. unfold slice_bound. repeat case_decide; lia.
  - intros k Hk -> H1. unfold slice_bound. repeat case_decide; try lia.
    f_equal; lia.
  - intros k Hk -> H1. unfold slice_bound. repeat case_decide; try lia.
    f_equal; lia.
Qed.

(** ** The datacube of cell [9] *)

(** X5. When cell [9] completes on a non-empty [file_store] with a window,
    the window's offsets are finite and [datacube] is, file after file in
    [file_store] order, the raster of the file cut to the window's slices,
    once per timestamp of the file: every layer is cut with the same
    slices, and layers of one file are adjacent. *)
Theorem datacube_is_files_in_order
    (L : Lib) (s s' : St) (f0 : string) (rest : list string) (w : Window) :
  ns s !! "file_store" = Some (VStrs (f0 :: rest)) →
  ns s !! "window" = Some (VWindow w) →
  run (cell9 L) s = (Ok tt, s') →
  ∃ x y cubes,
    window_slices w = Ok (x, y) ∧
    Forall2 (file_cube L x y) (f0 :: rest) cubes ∧
    ns s' !! "datacube" = Some (VCube (mjoin cubes)) ∧
    Forall (λ r, r_source r ∈ f0 :: rest ∧
                 ∃ cols rows, r = selected (whole (r_source r) cols rows) x y)
           (cube_layers (mjoin cubes)).
Proof.
  intros Hfs Hw Hrun.
  destruct (cell9_run L s (f0 :: rest) (VWindow w) Hfs Hw) as [_ Hval].
  rewrite Hrun in Hval. rewrite cell9_value_fold in Hval.
  destruct (comprehension _ (f0 :: rest)) as [[|d ds]|e] eqn:E; cbn in Hval;
    [by apply comprehension_length in E| |done].
  destruct Hval as [_ Hdc].
  apply comprehension_Forall2 in E.
  assert (∃ x y, window_slices w = Ok (x, y)) as (x & y & Hxy).
  { inversion E; subst. by eapply read_raster_window_finite. }
  exists x, y, (d :: ds). split; [done|].
  assert (Hall : Forall2 (file_cube L x y) (f0 :: rest) (d :: ds)).
  { eapply Forall2_impl; [exact E|]. cbn. intros f c. by apply read_raster_file_cube. }
  split; [done|]. split; [by rewrite Hdc, fold_concat_cubes|].
  clear -Hall. revert Hall. generalize (f0 :: rest), (d :: ds). clear.
  intros fs cubes. induction 1 as [|f c fs cubes Hc _ IH]; [constructor|].
  change (mjoin (c :: cubes)) with (c ++ mjoin cubes).
  unfold cube_layers in *. rewrite fmap_app. apply Forall_app. split.
  - destruct Hc as (cols & rows & ts & _ & _ & ->). unfold stamped.
    rewrite <- list_fmap_compose. apply Forall_fmap, Forall_forall. intros t _. cbn.
    split; [left|]. by exists cols, rows.
  - eapply Forall_impl; [exact IH|]. cbn. intros r [Hin Hr]. split; [by right|done].
Qed.

Lemma datacube_is_files_in_order_witness :
  ∃ x y cubes,
    window_slices demo_window = Ok (x, y) ∧
    Forall2 (file_cube demo_lib x y) demo_files cubes ∧
    ns (run (cell9 demo_lib) (prepared demo_lib [south_america])).2 !! "datacube"
      = Some (VCube (mjoin cubes)) ∧
    Forall (λ r, r_source r ∈ demo_files ∧
                 ∃ cols rows, r = selected (whole (r_source r) cols rows) x y)
           (cube_layers (mjoin cubes)).
Proof.
  refine (datacube_is_files_in_order demo_lib (prepared demo_lib [south_america])
            (run (cell9 demo_lib) (prepared demo_lib [south_america])).2
            url_2000 [url_2001; url_2002] demo_window _ _ _);
    vm_compute; reflexivity.
Defined.

Lemma cell9_keeps_inputs L s :
  ns (run (cell9 L) s).2 !! "file_store" = ns s !! "file_store" ∧
  ns (run (cell9 L) s).2 !! "window" = ns s !! "window".
Proof. split; apply cell9_preserves; unfold cell9_names; not_in_names. Qed.

(** X6. Cell [9] can be run again: it resets [first_run], so a second run
    after one that completed reads every file again, makes the same calls
    as the first, completes, and binds [datacube] to the same stack; the
    datacube does not grow from run to run. *)
Theorem cell9_again (L : Lib) (s s1 : St) (fs : list string) (w : pyval) :
  ns s !! "file_store" = Some (VStrs fs) →
  ns s !! "window" = Some w →
  run (cell9 L) s = (Ok tt, s1) →
  ∃ s2, run (cell9 L) s1 = (Ok tt, s2) ∧
        ns s2 !! "datacube" = ns s1 !! "datacube" ∧
        calls_from (cell9 L) s1 = calls_from (cell9 L) s ∧
        opened (calls_from (cell9 L) s1) = fs.
Proof.
  intros Hfs Hw Hrun.
  destruct (cell9_keeps_inputs L s) as [Hfs1 Hw1]. rewrite Hrun in Hfs1, Hw1. cbn in Hfs1, Hw1.
  rewrite Hfs in Hfs1. rewrite Hw in Hw1.
  destruct (cell9_run L s fs w Hfs Hw) as [Hl Hv].
  destruct (cell9_run L s1 fs w Hfs1 Hw1) as [Hl1 Hv1].
  rewrite Hrun in Hl, Hv. cbn [fst snd] in Hl, Hv.
  destruct (run (cell9 L) s1) as [r s2] eqn:Hrun1. cbn [fst snd] in Hl1, Hv1.
  assert (Hc : calls_from (cell9 L) s = cell9_log L w fs)
    by (apply calls_from_delta; unfold delta; by rewrite Hrun).
  assert (Hc1 : calls_from (cell9 L) s1 = cell9_log L w fs)
    by (apply calls_from_delta; unfold delta; by rewrite Hrun1).
  exists s2. rewrite Hc, Hc1.
  assert (Hop : opened (cell9_log L w fs) = fs).
  { destruct (cell9_log_opened L w fs) as [_ H].
    destruct (cell9_value L w fs) as [c|e]; [by destruct (H c eq_refl)|done]. }
  destruct (cell9_value L w fs) as [[c|]|e].
  - destruct Hv as [_ Hd], Hv1 as [-> Hd1]. by rewrite Hd, Hd1.
  - destruct Hv as [_ Hd], Hv1 as [-> Hd1]. by rewrite Hd1.
  - discriminate Hv.
Qed.

Lemma cell9_again_witness :
  let s1 := (run (cell9 demo_lib) (prepared demo_lib [south_america])).2 in
  ∃ s2, run (cell9 demo_lib) s1 = (Ok tt, s2) ∧
        ns s2 !! "datacube" = ns s1 !! "datacube" ∧
        calls_from (cell9 demo_lib) s1
          = calls_from (cell9 demo_lib) (prepared demo_lib [south_america]) ∧
        opened (calls_from (cell9 demo_lib) s1) = demo_files.
Proof.
  refine (cell9_again demo_lib (prepared demo_lib [south_america])
            (run (cell9 demo_lib) (prepared demo_lib [south_america])).2
            demo_files (VWindow demo_window) _ _ _);
    vm_compute; reflexivity.
Defined.

(** The stack the loop has reached when it stops, from its steady state. *)
Lemma stack_reached_run L w (fs : list string) : ∀ acc s,
  ns s !! "first_run" = Some (VBool false) →
  ns s !! "window" = Some w →
  ns s !! "datacube" = Some (VCube acc) →
  ns (run (for_each fs (stack_one L)) s).2 !! "datacube"
    = Some (VCube (stack_reached L w acc fs)).
Proof.
  induction fs as [|f fs IH]; intros acc s Hfr Hw Hdc; [done|].
  rewrite run_for_each_cons, (stack_one_later L f w acc) by done.
  cbn [stack_reached].
  destruct (outcome (read_raster L f w)) as [d|e]; [|by exec].
  apply IH; by exec.
Qed.

Lemma stack_reached_prefix L w (pre post : list string) ds : ∀ acc,
  comprehension (λ f, outcome (read_raster L f w)) pre = Ok ds →
  match post with
  | [] => True
  | f :: _ => ∃ e, outcome (read_raster L f w) = Raise e
  end →
  stack_reached L w acc (pre ++ post) = fold_left concat_cubes ds acc.
Proof.
  revert ds. induction pre as [|f pre IH]; intros ds acc; cbn.
  - intros [= <-] Hpost. destruct post as [|f post]; [done|].
    destruct Hpost as [e He]. cbn. by rewrite He.
  - destruct (outcome (read_raster L f w)) as [d|e]; [|done].
    destruct (comprehension _ pre) as [ds'|] eqn:E; [|done].
    intros [= <-] Hpost. cbn. by apply IH.
Qed.

(** X7. When a read fails in the middle of cell [9], the cell raises and
    [datacube] stays bound to what had been stacked so far: the
    concatenation of the reads before the failing file, in order. The
    files after it are never opened. If the very first read fails,
    [datacube] is what it was before the cell ran. *)
Theorem cell9_stops_at_first_failure
    (L : Lib) (s : St) (pre : list string) (f : string) (post : list string)
    (w : pyval) (ds : list Cube) (e : exn) :
  ns s !! "file_store" = Some (VStrs (pre ++ f :: post)) →
  ns s !! "window" = Some w →
  comprehension (λ f, outcome (read_raster L f w)) pre = Ok ds →
  outcome (read_raster L f w) = Raise e →
  let out := run (cell9 L) s in
  out.1 = Raise e ∧
  opened (calls_from (cell9 L) s) = pre ++ [f] ∧
  ns out.2 !! "datacube" =
    match ds with
    | [] => ns s !! "datacube"
    | d :: ds' => Some (VCube (fold_left concat_cubes ds' d))
    end.
Proof.
  intros Hfs Hw Hpre Hf out. subst out.
  assert (Hcomp : comprehension (λ f, outcome (read_raster L f w)) (pre ++ f :: post)
                  = Raise e).
  { clear -Hpre Hf. revert ds Hpre. induction pre as [|g pre IH]; intros ds; cbn.
    - by rewrite Hf.
    - destruct (outcome (read_raster L g w)); [|done].
      destruct (comprehension _ pre) eqn:E; [|done]. intros _. by rewrite (IH _ eq_refl). }
  destruct (cell9_run L s _ w Hfs Hw) as [Hl Hv].
  rewrite cell9_value_fold, Hcomp in Hv. split; [done|]. split.
  - rewrite (calls_from_delta _ _ _ Hl). clear -Hpre Hf.
    destruct pre as [|g pre]; cbn [app cell9_log].
    + rewrite Hf, app_nil_r. apply read_raster_opened.
    + cbn in Hpre. destruct (outcome (read_raster L g w)) as [d|]; [|done].
      destruct (comprehension _ pre) as [ds'|] eqn:E; [|done]. clear Hpre.
      rewrite opened_app, read_raster_opened. cbn. f_equal.
      revert d ds' E. induction pre as [|h pre IH]; intros d ds' E; cbn.
      * rewrite Hf, app_nil_r. apply read_raster_opened.
      * cbn in E. destruct (outcome (read_raster L h w)) as [d'|]; [|done].
        destruct (comprehension _ pre) as [ds''|] eqn:E'; [|done].
        rewrite opened_app, read_raster_opened. cbn. f_equal. by eapply IH.
  - unfold cell9. exec. rewrite Hfs. exec.
    destruct pre as [|g pre]; cbn [app].
    + injection Hpre as <-.
      rewrite run_for_each_cons, (stack_one_first L f w) by by exec.
      rewrite Hf. by exec.
    + cbn in Hpre. destruct (outcome (read_raster L g w)) as [d|] eqn:Hg; [|done].
      destruct (comprehension _ pre) as [ds'|] eqn:E; [|done]. injection Hpre as <-.
      rewrite run_for_each_cons, (stack_one_first L g w) by by exec.
      rewrite Hg.
      rewrite (stack_reached_run L w (pre ++ f :: post) d) by by exec.
      by rewrite (stack_reached_prefix L w pre (f :: post) ds') by eauto.
Qed.

Lemma cell9_stops_at_first_failure_witness :
  let out := run (cell9 missing_2001) (prepared missing_2001 [south_america]) in
  out.1 = Raise (External "HTTP 404") ∧
  opened (calls_from (cell9 missing_2001) (prepared missing_2001 [south_america]))
    = [url_2000; url_2001] ∧
  ns out.2 !! "datacube" = Some (VCube [(year_end 2000, demo_layer url_2000)]).
Proof.
  refine (cell9_stops_at_first_failure missing_2001 (prepared missing_2001 [south_america])
            [url_2000] url_2001 [url_2002] (VWindow demo_window)
            [[(year_end 2000, demo_layer url_2000)]] (External "HTTP 404") _ _ _ _);
    vm_compute; reflexivity.
Defined.

(** ** Cell [6] when something is missing *)

(** X8. With an empty [file_store], [file_store[0]] raises [IndexError]
    before cell [6] has called any library: nothing is opened, nothing is
    bound. So when the catalog query completes without a matching asset,
    a run of the whole notebook ends in cell [6] with [IndexError], in the
    state the query left. *)
Theorem cell6_needs_a_listed_file (L : Lib) (s : St) :
  ns s !! "file_store" = Some (VStrs []) →
  run (cell6 L) s = (Raise IndexError, s) ∧
  ∀ drawn, run (cell3 L;; cell4 L) (initial drawn) = (Ok tt, s) →
           run (notebook L) (initial drawn) = (Raise IndexError, s).
Proof.
  intros Hfs.
  assert (H6 : run (cell6 L) s = (Raise IndexError, s)).
  { unfold cell6, with_as. exec. rewrite Hfs. by exec. }
  split; [done|]. intros drawn Hrun.
  apply run_seq_ok in Hrun as ([] & s3 & H3 & H4).
  unfold notebook. rewrite run_bind, H3, run_bind, H4, run_bind.
  assert (H5 : run cell5 s = (Ok tt, s)) by (unfold cell5; exec; by rewrite Hfs).
  by rewrite H5, run_bind, H6.
Qed.

Lemma cell6_needs_a_listed_file_witness :
  let s := (run (cell3 other_lib;; cell4 other_lib) (initial [south_america])).2 in
  run (cell6 other_lib) s = (Raise IndexError, s) ∧
  run (notebook other_lib) (initial [south_america]) = (Raise IndexError, s).
Proof.
  destruct (cell6_needs_a_listed_file other_lib
              (run (cell3 other_lib;; cell4 other_lib) (initial [south_america])).2)
    as [H6 Hnb].
  - vm_compute. reflexivity.
  - split; [exact H6|]. apply Hnb. vm_compute. reflexivity.
Defined.

(** X9. Cell [6] closes the file it opened however its body ends, and
    closes nothing when the opening fails. When [from_bounds] raises,
    neither [window] nor [stats] is rebound; when [src.statistics(1)]
    raises, [window] is already bound to the new window while [stats] is
    what it was. *)
Theorem cell6_closes_what_it_opened
    (L : Lib) (s : St) (f0 : string) (rest : list string) (b : Bounds) :
  ns s !! "file_store" = Some (VStrs (f0 :: rest)) →
  ns s !! "bounds" = Some (VBounds b) →
  let out := run (cell6 L) s in
  match rasterio_open L f0 with
  | Raise e =>
      out = (Raise e, mkSt (ns s) (log s ++ [(CRasterioOpen f0, Some e)]))
  | Ok src =>
      closed (calls_from (cell6 L) s) = [src_url src] ∧
      last (log out.2) = Some (CClose (src_url src), None) ∧
      match from_bounds L (minx b) (miny b) (maxx b) (maxy b) (src_transform src) with
      | Raise e =>
          out.1 = Raise e ∧
          ns out.2 !! "window" = ns s !! "window" ∧
          ns out.2 !! "stats" = ns s !! "stats"
      | Ok w =>
          match src_statistics src 1 with
          | Raise e =>
              out.1 = Raise e ∧
              ns out.2 !! "window" = Some (VWindow w) ∧
              ns out.2 !! "stats" = ns s !! "stats"
          | Ok st =>
              out.1 = Ok tt ∧
              ns out.2 !! "window" = Some (VWindow w) ∧
              ns out.2 !! "stats" = Some (VStats st)
          end
      end
  end.
Proof.
  intros Hfs Hb out. subst out. unfold calls_from, closed, cell6, with_as, bounds_at.
  exec. rewrite Hfs. exec.
  destruct (rasterio_open L f0) as [src|e]; exec; [|done].
  repeat first [rewrite Hb | progress exec].
  destruct (from_bounds L _ _ _ _ _) as [w|e]; exec.
  - destruct (src_statistics src 1) as [st|e]; exec;
      rewrite ?drop_app_length, ?last_snoc, <- ?app_assoc; cbn;
      rewrite ?(drop_app_length (log s)), ?last_app; done.
  - rewrite <- ?app_assoc, ?(drop_app_length (log s)), ?last_app. done.
Qed.

Lemma cell6_closes_what_it_opened_witness :
  let s := (run (cell3 no_statistics;; cell4 no_statistics) (initial [south_america])).2 in
  let out := run (cell6 no_statistics) s in
  closed (calls_from (cell6 no_statistics) s) = [url_2000] ∧
  last (log out.2) = Some (CClose url_2000, None) ∧
  out.1 = Raise (External "no statistics") ∧
  ns out.2 !! "window" = Some (VWindow demo_window) ∧
  ns out.2 !! "stats" = None.
Proof.
  assert (Hfs : ns (run (cell3 no_statistics;; cell4 no_statistics)
                      (initial [south_america])).2 !! "file_store"
                = Some (VStrs (url_2000 :: [url_2001; url_2002])))
    by (vm_compute; reflexivity).
  assert (Hb : ns (run (cell3 no_statistics;; cell4 no_statistics)
                     (initial [south_america])).2 !! "bounds"
               = Some (VBounds (mkBounds (-100.5) (-57.25) (-31.75) 18.75)))
    by (vm_compute; reflexivity).
  pose proof (cell6_closes_what_it_opened no_statistics _ _ _ _ Hfs Hb) as H.
  vm_compute in H. vm_compute. exact H.
Defined.

(** ** The value range of the viewer *)

Lemma cell10_uses_stats L s s' :
  run (cell10 L) s = (Ok tt, s') →
  ∃ st, ns s !! "stats" = Some (VStats st) ∧
        ns s' = <["viewer" := VViewer []]> (ns s) ∧
        log s' = log s ++ [(CViewer (stat_min st) (stat_max st), None)].
Proof.
  unfold cell10. exec.
  destruct (ns s !! "stats") as [[]|] eqn:Hst; exec; try done.
  repeat first [rewrite Hst | progress exec].
  match goal with |- context [Viewer L ?a ?b] => destruct (Viewer L a b) as [[]|e] end;
    exec; [|done].
  intros [= <-]. eauto.
Qed.

(** X10. In every run of the notebook that completes, the viewer is
    configured once, and the value range of its colour mapping is the
    minimum and maximum of the band 1 statistics of the first listed file
    alone, the file cell [6] opened; the other files of the datacube do not
    enter it. [stats] still holds these statistics at the end. *)
Theorem viewer_range_from_first_file (L : Lib) (drawn : list Feature) (s' : St) :
  run (notebook L) (initial drawn) = (Ok tt, s') →
  ∃ f0 rest src st,
    ns s' !! "file_store" = Some (VStrs (f0 :: rest)) ∧
    rasterio_open L f0 = Ok src ∧ src_statistics src 1 = Ok st ∧
    ns s' !! "stats" = Some (VStats st) ∧
    value_ranges (log s') = [(stat_min st, stat_max st)].
Proof.
  intros R.
  destruct (notebook_run L drawn s' R)
    as (feat & sh & b & cat & colls & f0 & rest & src & w & dc & lo & hi &
        _ & _ & _ & Hc & Hcs & Hlisted & Hsrc & _ & _ & _ & Hfs' & _ & _ & _).
  unfold notebook in R.
  apply run_seq_ok in R as ([] & s3 & R3 & R).
  apply run_seq_ok in R as ([] & s4 & R4 & R).
  apply run_seq_ok in R as ([] & s5 & R5 & R). apply cell5_run in R5 as ->.
  apply run_seq_ok in R as ([] & s6 & R6 & R).
  apply run_seq_ok in R as ([] & s7 & R7 & R). apply cell7_run in R7 as ->.
  apply run_seq_ok in R as ([] & s9 & R9 & R).
  apply run_seq_ok in R as ([] & s10 & R10 & R11).
  destruct (cell3_run _ _ _ R3) as (data & feat' & sh' & b' & _ & _ & _ & _ & _ & L3).
  destruct (list_assets_run _ _ _ _ _ _ R4) as (cat' & colls' & Hc' & Hcs' & Hfs4 & L4).
  assert (cat' = cat) as -> by congruence.
  assert (colls' = colls) as -> by congruence.
  destruct (cell6_run _ _ _ R6)
    as (f0' & rest' & b6 & src' & w' & st & Hfs & _ & Hsrc' & _ & Hst & N6 & L6).
  assert (f0' = f0) as -> by congruence.
  assert (src' = src) as -> by congruence.
  assert (Hfs6 : ns s6 !! "file_store" = Some (VStrs (f0 :: rest')))
    by (rewrite N6; by rewrite !lookup_insert_ne).
  assert (Hw6 : ns s6 !! "window" = Some (VWindow w'))
    by (rewrite N6; rewrite lookup_insert_ne by done; by rewrite lookup_insert_eq).
  destruct (cell9_run L s6 _ _ Hfs6 Hw6) as [L9 _].
  rewrite R9 in L9. cbn [snd] in L9.
  assert (Hst9 : ns s9 !! "stats" = Some (VStats st)).
  { pose proof (cell9_preserves L s6 "stats" ltac:(unfold cell9_names; not_in_names)) as K.
    rewrite R9 in K. cbn [snd] in K. by rewrite K, N6, lookup_insert_eq. }
  destruct (cell10_uses_stats _ _ _ R10) as (st' & Hst' & N10 & L10).
  assert (st' = st) as -> by congruence.
  destruct (cell11_run _ _ _ R11) as (c & _ & _ & L11).
  exists f0, rest, src, st. repeat split; try done.
  - pose proof (cell11_preserves L s10 "stats"
                  ltac:(unfold viewer_names; not_in_names)) as K.
    rewrite R11 in K. cbn [snd] in K. by rewrite K, N10, lookup_insert_ne.
  - rewrite L11, L10, L9, L6, L4, L3. cbn [initial log].
    pose proof (listing_log_phase target_collection target_item colls) as H4.
    pose proof (cell9_log_phase L (VWindow w') (f0 :: rest')) as H9.
    unfold value_ranges. rewrite !omap_app.
    rewrite (omap_none _ (listing_log _ _ _))
      by (eapply Forall_impl; [exact H4|]; by intros [[] ?]).
    rewrite (omap_none _ (cell9_log _ _ _))
      by (eapply Forall_impl; [exact H9|]; by intros [[] ?]).
    done.
Qed.

Lemma viewer_range_from_first_file_witness :
  let s' := (run (notebook demo_lib) (initial [south_america])).2 in
  ∃ f0 rest src st,
    ns s' !! "file_store" = Some (VStrs (f0 :: rest)) ∧
    rasterio_open demo_lib f0 = Ok src ∧ src_statistics src 1 = Ok st ∧
    ns s' !! "stats" = Some (VStats st) ∧
    value_ranges (log s') = [(stat_min st, stat_max st)].
Proof.
  refine (viewer_range_from_first_file demo_lib [south_america]
            (run (notebook demo_lib) (initial [south_america])).2 _).
  vm_compute. reflexivity.
Defined.

(** ** The listing, item by item *)

Lemma listed_lookup tc ti colls :
  listed tc ti colls =
  (c ← filter (λ c, coll_id c = tc) colls; it ← items_of c; item_href ti it).
Proof.
  unfold listed. induction (filter (λ c, coll_id c = tc) colls) as [|c cs IH]; [done|].
  rewrite !bind_cons, IH. f_equal.
  induction (items_of c) as [|it its IHi]; [done|].
  rewrite !bind_cons, IHi. f_equal. apply asset_hrefs_lookup.
Qed.

Lemma bind_at_most_one {A B} (g : A → list B) (l : list A) :
  (∀ x, (length (g x) ≤ 1)%nat) → (length (l ≫= g) ≤ length l)%nat.
Proof.
  intros Hg. induction l as [|x l IH]; [done|].
  rewrite bind_cons, length_app. cbn. pose proof (Hg x). lia.
Qed.

(** X11. When the catalog query completes, every item of a collection
    with the target id has contributed to [file_store] the ['href'] of its
    asset under the target key, if it has one, and nothing otherwise: at
    most one URL per item, whatever the order in which the keys of an item
    are visited. So [file_store] has at most as many URLs as those
    collections have items, and a URL is in it exactly when it is that
    asset of one of those items. What [file_store] held before the query
    is gone. *)
Theorem file_store_one_url_per_item (url tc ti : string) (L : Lib) (s s' : St) :
  run (list_assets url tc ti L) s = (Ok tt, s') →
  ∃ cat colls fs,
    Client_open L url = Ok cat ∧ cat_collections cat = Ok colls ∧
    ns s' !! "file_store" = Some (VStrs fs) ∧
    fs = (c ← filter (λ c, coll_id c = tc) colls; it ← items_of c; item_href ti it) ∧
    (length fs ≤ length (filter (λ c, coll_id c = tc) colls ≫= items_of))%nat ∧
    (∀ u, u ∈ fs ↔ ∃ c it a, c ∈ colls ∧ coll_id c = tc ∧ it ∈ items_of c ∧
                             item_assets it !! ti = Some a ∧ href a = u).
Proof.
  intros R. destruct (list_assets_run _ _ _ _ _ _ R) as (cat & colls & Hc & Hcs & Hfs & _).
  exists cat, colls, (listed tc ti colls).
  split; [done|]. split; [done|]. split; [done|].
  split; [apply listed_lookup|]. rewrite listed_lookup. split.
  - induction (filter (λ c, coll_id c = tc) colls) as [|c cs IH]; [done|].
    rewrite !bind_cons, !length_app.
    apply Nat.add_le_mono; [|exact IH].
    apply bind_at_most_one. intros it. unfold item_href.
    destruct (item_assets it !! ti); cbn; lia.
  - intros u. rewrite list_elem_of_bind. split.
    + intros (c & (it & Hu & Hit)%list_elem_of_bind & [Hid Hin]%list_elem_of_filter).
      unfold item_href in Hu. destruct (item_assets it !! ti) as [a|] eqn:E.
      * apply list_elem_of_singleton in Hu. by exists c, it, a.
      * by apply elem_of_nil in Hu.
    + intros (c & it & a & Hin & Hid & Hit & Ha & <-).
      exists c. split; [|by apply list_elem_of_filter].
      apply list_elem_of_bind. exists it. split; [|done].
      unfold item_href. rewrite Ha. by apply list_elem_of_singleton.
Qed.

Lemma file_store_one_url_per_item_witness :
  ∃ cat colls fs,
    Client_open demo_lib catalog_url = Ok cat ∧ cat_collections cat = Ok colls ∧
    ns (run (cell4 demo_lib) (initial [])).2 !! "file_store" = Some (VStrs fs) ∧
    fs = (c ← filter (λ c, coll_id c = target_collection) colls;
          it ← items_of c; item_href target_item it) ∧
    (length fs ≤ length (filter (λ c, coll_id c = target_collection) colls
                          ≫= items_of))%nat ∧
    (∀ u, u ∈ fs ↔ ∃ c it a, c ∈ colls ∧ coll_id c = target_collection ∧
                             it ∈ items_of c ∧
                             item_assets it !! target_item = Some a ∧ href a = u).
Proof.
  refine (file_store_one_url_per_item catalog_url target_collection target_item
            demo_lib (initial []) (run (cell4 demo_lib) (initial [])).2 _).
  vm_compute. reflexivity.
Defined.

(** ** Cells run out of order *)

(** X12. With the imports of cell [1] in place, a cell run before the
    cells that bind its globals raises [NameError] for the first global it
    evaluates that is unbound, before calling any library: cell [3] needs
    [draw_control], cells [5] and [6] [file_store], cells [7] and [10]
    [stats], cell [11] [viewer] and then [datacube]. Cell [9] has already
    bound [first_run] when it misses [file_store]. Cell [6] has already
    opened the first file when it misses [bounds], and closes it. *)
Theorem cells_need_their_globals (L : Lib) (s : St) :
  (ns s !! "draw_control" = None →
     run (cell3 L) s = (Raise (NameError "draw_control"), s)) ∧
  (ns s !! "file_store" = None →
     run cell5 s = (Raise (NameError "file_store"), s) ∧
     run (cell6 L) s = (Raise (NameError "file_store"), s) ∧
     run (cell9 L) s = (Raise (NameError "file_store"),
                        mkSt (<["first_run" := VBool true]> (ns s)) (log s))) ∧
  (ns s !! "stats" = None →
     run cell7 s = (Raise (NameError "stats"), s) ∧
     run (cell10 L) s = (Raise (NameError "stats"), s)) ∧
  (ns s !! "viewer" = None →
     run (cell11 L) s = (Raise (NameError "viewer"), s)) ∧
  (∀ ds, ns s !! "viewer" = Some (VViewer ds) → ns s !! "datacube" = None →
     run (cell11 L) s = (Raise (NameError "datacube"), s)) ∧
  (∀ f fs src, ns s !! "file_store" = Some (VStrs (f :: fs)) →
     rasterio_open L f = Ok src → ns s !! "bounds" = None →
     run (cell6 L) s =
       (Raise (NameError "bounds"),
        mkSt (<["src" := VSrc src]> (ns s))
             (log s ++ [(CRasterioOpen f, None); (CClose (src_url src), None)]))).
Proof.
  destruct s as [n l]. cbn [ns log].
  split; [|split; [|split; [|split; [|split]]]].
  - intros H. unfold cell3. exec. by rewrite H.
  - intros H. split; [|split].
    + unfold cell5. exec. by rewrite H.
    + unfold cell6, with_as. exec. by rewrite H.
    + unfold cell9. exec. by rewrite H.
  - intros H. split.
    + unfold cell7. exec. by rewrite H.
    + unfold cell10. exec. by rewrite H.
  - intros H. unfold cell11. exec. by rewrite H.
  - intros ds Hv Hd. unfold cell11. exec. rewrite Hv. exec. by rewrite Hd.
  - intros f fs src Hfs Hsrc Hb. unfold cell6, with_as, bounds_at. exec.
    rewrite Hfs. exec. rewrite Hsrc. exec. rewrite Hb. exec.
    by rewrite <- app_assoc.
Qed.

Lemma cells_need_their_globals_witness :
  run cell5 (initial [south_america])
    = (Raise (NameError "file_store"), initial [south_america]) ∧
  run (cell10 demo_lib) (initial [south_america])
    = (Raise (NameError "stats"), initial [south_america]).
Proof.
  destruct (cells_need_their_globals demo_lib (initial [south_america]))
    as (_ & H5 & H7 & _).
  split.
  - apply H5. vm_compute. reflexivity.
  - apply H7. vm_compute. reflexivity.
Defined.

(** ** A catalog query that fails *)

Lemma cell6_on_empty L s :
  ns s !! "file_store" = Some (VStrs []) → run (cell6 L) s = (Raise IndexError, s).
Proof. intros Hfs. unfold cell6, with_as. exec. rewrite Hfs. by exec. Qed.

(** X13. Cell [4] empties [file_store] before it queries the catalog. When
    [Client.open] raises, the cell raises the same and [file_store] is
    left bound to the empty list, whatever an earlier run had listed:
    cell [6] run afterwards raises [IndexError] instead of opening a file
    of the earlier listing. *)
Theorem failed_query_empties_file_store
    (url tc ti : string) (L : Lib) (s : St) (e : exn) :
  Client_open L url = Raise e →
  let out := run (list_assets url tc ti L) s in
  out.1 = Raise e ∧
  ns out.2 !! "file_store" = Some (VStrs []) ∧
  calls_from (list_assets url tc ti L) s = [(CClientOpen url, Some e)] ∧
  run (cell6 L) out.2 = (Raise IndexError, out.2).
Proof.
  intros H out.
  assert (Hout : out.1 = Raise e ∧ ns out.2 !! "file_store" = Some (VStrs []) ∧
                 calls_from (list_assets url tc ti L) s = [(CClientOpen url, Some e)]).
  { subst out. unfold calls_from, list_assets. exec. rewrite H. exec.
    by rewrite drop_app_length. }
  destruct Hout as (H1 & H2 & H3).
  split; [done|]. split; [done|]. split; [done|]. by apply cell6_on_empty.
Qed.

Lemma failed_query_empties_file_store_witness :
  let s := (run (notebook demo_lib) (initial [south_america])).2 in
  let out := run (list_assets catalog_url target_collection target_item offline_lib) s in
  ns s !! "file_store" = Some (VStrs demo_files) ∧
  out.1 = Raise (External "connection refused") ∧
  ns out.2 !! "file_store" = Some (VStrs []) ∧
  calls_from (list_assets catalog_url target_collection target_item offline_lib) s
    = [(CClientOpen catalog_url, Some (External "connection refused"))] ∧
  run (cell6 offline_lib) out.2 = (Raise IndexError, out.2).
Proof.
  split; [vm_compute; reflexivity|].
  refine (failed_query_empties_file_store catalog_url target_collection target_item
            offline_lib (run (notebook demo_lib) (initial [south_america])).2
            (External "connection refused") _).
  reflexivity.
Defined.
